(** * RigidBodyNodeSpec<dof>: the per-mobilizer kinematics contract of Simbody

    A shallow embedding of [src/RigidBodyNodeSpec.h].  The class template
    [RigidBodyNodeSpec<dof>] becomes a family of functions indexed by
    [dof : nat]; an object is the data of its base class (a record
    [RigidBodyNode]) together with the table of virtual methods its concrete
    class installs (a record [Mobilizer dof]).  Methods that write through a
    reference return the new value of what they write. *)

From Stdlib Require Import ZArith PrimFloat.
From stdpp Require Import base tactics option list vector.

Local Open Scope Z_scope.

(** ** Outcomes of a call

    A call either returns, or stops at an [assert] whose condition is false
    (the checks are compiled in), or leaves defined behaviour: an access
    outside the array a pointer was taken from, or an [int] computation
    whose result is not an [int]. *)

Inductive outcome (A : Type) : Type :=
  | Ok (a : A)
  | AssertionFailed
  | Undefined.
Arguments Ok {A} a.
Arguments AssertionFailed {A}.
Arguments Undefined {A}.

#[global] Instance outcome_ret : MRet outcome := fun A a => Ok a.
#[global] Instance outcome_bind : MBind outcome := fun A B f x =>
  match x with
  | Ok a => f a
  | AssertionFailed => AssertionFailed
  | Undefined => Undefined
  end.

(** [assert(c)] *)
Definition c_assert (c : bool) : outcome unit :=
  if c then Ok tt else AssertionFailed.

(** ** Scalars and spatial vectors

    [Real] is an IEEE binary64 [double].  [Vec3] and [SpatialVec] (a
    [Vec<2,Vec3>]: angular part [V[0]], linear part [V[1]]) are records. *)

Definition Real : Type := float.
Bind Scope float_scope with Real.

Record Vec3 : Type := mkVec3 { v3x : Real; v3y : Real; v3z : Real }.

Record SpatialVec : Type := mkSpatialVec { sv0 : Vec3; sv1 : Vec3 }.

(** A [Vector] is a run-time sized array of [Real]; a [const Real*] or
    [Real*] argument is the array it points into, seen from its first
    element. *)
Definition Vector : Type := list Real.

(** ** Fixed-size views of an array: [Vec<n>::getAs] and [Vec<n>::updAs] *)

(** The first [n] elements of [l], when there are that many. *)
Fixpoint read_vec {E : Type} (n : nat) (l : list E) : option (vec E n) :=
  match n with
  | O => Some [#]
  | S n' =>
      match l with
      | [] => None
      | x :: l' => vcons x <$> read_vec n' l'
      end
  end.

(** [Vec<n,E>::getAs(&a[off])]: the [n] elements of [a] from index [off]. *)
Definition getAs {E : Type} (n : nat) (a : list E) (off : Z) : outcome (vec E n) :=
  if (0 <=? off) && (off + Z.of_nat n <=? Z.of_nat (length a)) then
    match read_vec n (drop (Z.to_nat off) a) with
    | Some v => Ok v
    | None => Undefined
    end
  else Undefined.

(** [Vec<n,E>::updAs(&a[off]) = v]: [a] with its [n] elements from index
    [off] replaced by those of [v]. *)
Definition updAs {E : Type} {n : nat} (a : list E) (off : Z) (v : vec E n)
  : outcome (list E) :=
  if (0 <=? off) && (off + Z.of_nat n <=? Z.of_nat (length a)) then
    Ok (list_inserts (Z.to_nat off) (vec_to_list v) a)
  else Undefined.

(** [Vec<n>::updAs(&a[off]) = e] for a scalar [e]: every one of the [n]
    elements becomes [e]. *)
Definition updAs_scalar {E : Type} (n : nat) (a : list E) (off : Z) (e : E)
  : outcome (list E) :=
  updAs a off (vreplicate n e).

(** ** What the header takes from the rest of the library *)

(** Modelled from the spec: the spatial primitives of SimTK (section 2, item
    1, "consumed, not specified") that the header uses on transforms: the
    rotation and translation parts [X.R()] and [X.p()], the composition
    [X1 * X2] and the inverse [~X].  Their code is not in src; every result
    below holds for any implementation of them. *)
Class SpatialPrimitives : Type := {
  Rotation : Type;
  Transform : Type;
  X_R : Transform -> Rotation;
  X_p : Transform -> Vec3;
  X_mul : Transform -> Transform -> Transform;
  X_inv : Transform -> Transform;
}.

(** Modelled from the spec: the pieces of the state container (section 6)
    that the header passes around without looking inside them. *)
Class StateContainer : Type := {
  MassProperties : Type;
  SBTopologyCache : Type;
  SBModelVars : Type;
  SBModelCache : Type;
  SBInstanceVars : Type;
  SBInstanceCache : Type;
  SBTimeVars : Type;
  SBDynamicsVars : Type;
  (** what the stage caches hold besides the entries this header names *)
  SBPositionCacheRest : Type;
  SBVelocityCacheRest : Type;
  SBDynamicsCacheRest : Type;
  SBAccelerationCache : Type;
  (** what the digest reaches besides what [realizePosition],
      [realizeVelocity] and [realizeDynamics] ask it for *)
  SBStateDigestRest : Type;
}.

(** Modelled from the spec: the two modes of section 3, declared with the
    base class (RigidBodyNode.h is not in src). *)
Inductive QDotHandling : Type :=
  | QDotIsAlwaysTheSameAsU
  | QDotMayDifferFromU.

Inductive QuaternionUse : Type :=
  | QuaternionIsNeverUsed
  | QuaternionMayBeUsed.

#[global] Instance QDotHandling_eq_dec : EqDecision QDotHandling.
Proof. solve_decision. Defined.
#[global] Instance QuaternionUse_eq_dec : EqDecision QuaternionUse.
Proof. solve_decision. Defined.

(** ** C [int] arithmetic

    [UIndex], [USquaredIndex] and [QIndex] wrap an [int]; [+=] on them is
    [int] addition, which is defined only when the sum is an [int]. *)

Definition INT_MIN : Z := - 2 ^ 31.
Definition INT_MAX : Z := 2 ^ 31 - 1.

Definition is_int (z : Z) : bool := (INT_MIN <=? z) && (z <=? INT_MAX).

Definition to_int (z : Z) : outcome Z :=
  if is_int z then Ok z else Undefined.

Definition int_add (a b : Z) : outcome Z := to_int (a + b).
Definition int_mul (a b : Z) : outcome Z := to_int (a * b).

(** ** Arrays with one entry per body *)

(** [a[i]], read. *)
Definition getAt {E : Type} (a : list E) (i : Z) : outcome E :=
  if 0 <=? i then
    match a !! Z.to_nat i with
    | Some x => Ok x
    | None => Undefined
    end
  else Undefined.

(** [a[i] = x]. *)
Definition updAt {E : Type} (a : list E) (i : Z) (x : E) : outcome (list E) :=
  if (0 <=? i) && (i <? Z.of_nat (length a)) then Ok (<[Z.to_nat i := x]> a)
  else Undefined.

Section Node.
Context {SP : SpatialPrimitives} {SC : StateContainer}.

(** ** The base class object

    Modelled from the spec: the data members of the base class
    [RigidBodyNode] (section 3, "Node"), which the header reads through
    [getX_PF()], [getX_MB()], [isReversed()] and the protected members
    [uIndex], [uSqIndex], [qIndex], [qdotHandling], [quaternionUse].
    [nodeNum] and [parentNum] locate this body's and its parent's entries in
    the per-body arrays of the caches; they are -1 until the tree places the
    node. *)
Record RigidBodyNode : Type := mkRigidBodyNode {
  massProps_B : MassProperties;
  X_PF : Transform;
  X_BM : Transform;
  qdotHandling : QDotHandling;
  quaternionUse : QuaternionUse;
  reversed : bool;
  nodeNum : Z;
  parentNum : Z;
  uIndex : Z;
  uSqIndex : Z;
  qIndex : Z;
}.

(** The second fixed transform is kept as X_BM and used as its inverse
    X_MB. *)
Definition getX_PF (n : RigidBodyNode) : Transform := X_PF n.
Definition getX_MB (n : RigidBodyNode) : Transform := X_inv (X_BM n).
Definition isReversed (n : RigidBodyNode) : bool := reversed n.

(** ** The stage caches and the state digest

    Modelled from the spec: section 3, "Stage caches": flat arrays owned by
    the state container.  The header names [sq], [cq], [qnorm],
    [storageForH_FM], [storageForH], [storageForHDot_FM] and
    [storageForHDot]; the per-body arrays are those behind the base class
    accessors [getX_FM], [updX_PB], [updX_GB], [getX_GP], [updV_FM],
    [updV_PB_G] and [updVD_PB_G].  A [storageFor...] matrix has two rows of
    [Vec3] and one column per mobility, so it is a list of columns, each a
    [SpatialVec]. *)
Record SBPositionCache : Type := mkSBPositionCache {
  sq : Vector;
  cq : Vector;
  qnorm : Vector;
  storageForH_FM : list SpatialVec;
  storageForH : list SpatialVec;
  bodyJointInParentJointFrame : list Transform;   (* X_FM *)
  bodyConfigInParent : list Transform;            (* X_PB *)
  bodyConfigInGround : list Transform;            (* X_GB *)
  positionCacheRest : SBPositionCacheRest;
}.

Record SBVelocityCache : Type := mkSBVelocityCache {
  mobilizerRelativeVelocity : list SpatialVec;    (* V_FM *)
  bodyVelocityInParent : list SpatialVec;         (* V_PB_G *)
  velocityCacheRest : SBVelocityCacheRest;
}.

Record SBDynamicsCache : Type := mkSBDynamicsCache {
  storageForHDot_FM : list SpatialVec;
  storageForHDot : list SpatialVec;
  bodyVelocityInParentDerivRemainder : list SpatialVec;   (* VD_PB_G *)
  dynamicsCacheRest : SBDynamicsCacheRest;
}.

Record SBStateDigest : Type := mkSBStateDigest {
  getModelVars : SBModelVars;
  getModelCache : SBModelCache;
  getInstanceCache : SBInstanceCache;
  getPositionCache : SBPositionCache;
  getVelocityCache : SBVelocityCache;
  getDynamicsCache : SBDynamicsCache;
  getAccelerationCache : SBAccelerationCache;
  getQ : Vector;
  getU : Vector;
  getQErr : Vector;
  getQDot : Vector;
  digestRest : SBStateDigestRest;
}.

Definition setPositionCache (sbs : SBStateDigest) (pc : SBPositionCache) : SBStateDigest :=
  mkSBStateDigest (getModelVars sbs) (getModelCache sbs) (getInstanceCache sbs)
    pc (getVelocityCache sbs) (getDynamicsCache sbs) (getAccelerationCache sbs)
    (getQ sbs) (getU sbs) (getQErr sbs) (getQDot sbs) (digestRest sbs).

Definition setVelocityCache (sbs : SBStateDigest) (vc : SBVelocityCache) : SBStateDigest :=
  mkSBStateDigest (getModelVars sbs) (getModelCache sbs) (getInstanceCache sbs)
    (getPositionCache sbs) vc (getDynamicsCache sbs) (getAccelerationCache sbs)
    (getQ sbs) (getU sbs) (getQErr sbs) (getQDot sbs) (digestRest sbs).

Definition setDynamicsCache (sbs : SBStateDigest) (dc : SBDynamicsCache) : SBStateDigest :=
  mkSBStateDigest (getModelVars sbs) (getModelCache sbs) (getInstanceCache sbs)
    (getPositionCache sbs) (getVelocityCache sbs) dc (getAccelerationCache sbs)
    (getQ sbs) (getU sbs) (getQErr sbs) (getQDot sbs) (digestRest sbs).

Definition setQErr (sbs : SBStateDigest) (qErr : Vector) : SBStateDigest :=
  mkSBStateDigest (getModelVars sbs) (getModelCache sbs) (getInstanceCache sbs)
    (getPositionCache sbs) (getVelocityCache sbs) (getDynamicsCache sbs)
    (getAccelerationCache sbs) (getQ sbs) (getU sbs) qErr (getQDot sbs) (digestRest sbs).

Definition setQDot (sbs : SBStateDigest) (qdot : Vector) : SBStateDigest :=
  mkSBStateDigest (getModelVars sbs) (getModelCache sbs) (getInstanceCache sbs)
    (getPositionCache sbs) (getVelocityCache sbs) (getDynamicsCache sbs)
    (getAccelerationCache sbs) (getQ sbs) (getU sbs) (getQErr sbs) qdot (digestRest sbs).

End Node.

(** ** Small-matrix products

    Modelled from the spec: the product [Mat<2,dof,Vec3> * Vec<dof>] of
    SimTK's small-matrix library (section 2, item 1; not in src), the
    "Jacobian-times-u product" of section 8: entry [i] of the result is row
    [i] of the matrix times the vector, the sum of the products
    [r[j] * v[j]] taken from [j = 0] upwards, and a [Vec3] times a [Real]
    scales each component. *)

Definition Vec3_scale (v : Vec3) (r : Real) : Vec3 :=
  mkVec3 (v3x v * r)%float (v3y v * r)%float (v3z v * r)%float.

Definition Vec3_add (a b : Vec3) : Vec3 :=
  mkVec3 (v3x a + v3x b)%float (v3y a + v3y b)%float (v3z a + v3z b)%float.

Definition Row_mul_Vec (r : list Vec3) (v : list Real) : outcome Vec3 :=
  match r, v with
  | r0 :: r', v0 :: v' =>
      Ok (foldl (fun sum rv => Vec3_add sum (Vec3_scale rv.1 rv.2))
                (Vec3_scale r0 v0) (zip r' v'))
  | _, _ => Undefined
  end.

Definition Mat_mul_Vec {n : nat} (H : vec SpatialVec n) (v : vec Real n)
  : outcome SpatialVec :=
  w ← Row_mul_Vec (sv0 <$> vec_to_list H) (vec_to_list v);
  l ← Row_mul_Vec (sv1 <$> vec_to_list H) (vec_to_list v);
  Ok (mkSpatialVec w l).

Section Spec.
Context {SP : SpatialPrimitives} {SC : StateContainer}.

(** The template parameter of [RigidBodyNodeSpec<dof>]. *)
Variable dof : nat.

(** [typedef Mat<2,dof,Vec3> HType]: [dof] columns, each a [SpatialVec]. *)
Definition HType : Type := vec SpatialVec dof.

(** ** The methods the header only declares *)

(** The virtual methods a concrete mobilizer supplies, each applied to the
    node it is called on.  A method that writes its result through a
    reference argument is the function from its other arguments to that
    result ("they are passed arguments to write their results into"); one
    that updates a [Vector] in place maps the old vector to the new one.
    [calcReverseMobilizerH_FM] and [calcReverseMobilizerHDot_FM] are
    declared in the header and defined outside it; the last two fields are
    the overrides, if any, of virtual methods the header defines. *)
Record Mobilizer : Type := mkMobilizer {
  calcJointSinCosQNorm :
    RigidBodyNode -> SBModelVars -> SBModelCache -> SBInstanceCache ->
    Vector (* q *) -> Vector (* sq *) -> Vector (* cq *) ->
    Vector (* qErr *) -> Vector (* qnorm *) ->
    Vector * Vector * Vector * Vector (* sq, cq, qErr, qnorm *);
  calcAcrossJointTransform :
    RigidBodyNode -> SBStateDigest -> Vector -> Transform;
  calcAcrossJointVelocityJacobian : RigidBodyNode -> SBStateDigest -> HType;
  calcAcrossJointVelocityJacobianDot : RigidBodyNode -> SBStateDigest -> HType;
  calcReverseMobilizerH_FM : RigidBodyNode -> SBStateDigest -> HType;
  calcReverseMobilizerHDot_FM : RigidBodyNode -> SBStateDigest -> HType;
  setQToFitRotationImpl :
    RigidBodyNode -> SBStateDigest -> Rotation -> Vector -> Vector;
  setQToFitTranslationImpl :
    RigidBodyNode -> SBStateDigest -> Vec3 -> Vector -> Vector;
  setUToFitAngularVelocityImpl :
    RigidBodyNode -> SBStateDigest -> Vector -> Vec3 -> Vector -> Vector;
  setUToFitLinearVelocityImpl :
    RigidBodyNode -> SBStateDigest -> Vector -> Vec3 -> Vector -> Vector;
  getMaxNQ_override : option (RigidBodyNode -> outcome Z);
  calcQDot_override :
    option (RigidBodyNode -> SBStateDigest -> Vector -> Vector -> outcome Vector);
}.

(** The member functions that are the same for all mobilizers and are
    defined outside the header. *)
Record OutOfLine : Type := mkOutOfLine {
  calcParentToChildVelocityJacobianInGround :
    RigidBodyNode -> SBModelVars -> SBPositionCache -> HType;
  calcParentToChildVelocityJacobianInGroundDot :
    RigidBodyNode -> SBModelVars -> SBPositionCache -> SBVelocityCache ->
    SBDynamicsCache -> HType;
  calcJointIndependentKinematicsPos :
    RigidBodyNode -> SBPositionCache -> SBPositionCache;
  calcJointIndependentKinematicsVel :
    RigidBodyNode -> SBPositionCache -> SBVelocityCache -> SBVelocityCache;
  calcJointIndependentDynamicsVel :
    RigidBodyNode -> SBPositionCache -> SBVelocityCache -> SBDynamicsCache ->
    SBDynamicsCache;
}.

(** ** Constructor and slot counters *)

(** Modelled from the spec: the constructor of the base class, which binds
    the mass properties, the two fixed transforms, the two modes and the
    reversed flag (section 3, "Lifecycle"); nothing is placed or indexed
    yet. *)
Definition RigidBodyNode_ctor (mProps_B : MassProperties) (X_PF' X_BM' : Transform)
    (qdotHandling' : QDotHandling) (quaternionUse' : QuaternionUse)
    (isReversed' : bool) : RigidBodyNode :=
  mkRigidBodyNode mProps_B X_PF' X_BM' qdotHandling' quaternionUse' isReversed'
    (-1) (-1) (-1) (-1) (-1).

Definition RigidBodyNodeSpec_ctor (mProps_B : MassProperties) (X_PF' X_BM' : Transform)
    (nextUSlot nextUSqSlot nextQSlot : Z)
    (qdotHandling' : QDotHandling) (quaternionUse' : QuaternionUse)
    (isReversed' : bool) : RigidBodyNode :=
  let base :=
    RigidBodyNode_ctor mProps_B X_PF' X_BM' qdotHandling' quaternionUse' isReversed' in
  mkRigidBodyNode (massProps_B base) (X_PF base) (X_BM base)
    (qdotHandling base) (quaternionUse base) (reversed base)
    (nodeNum base) (parentNum base)
    nextUSlot nextUSqSlot nextQSlot.

Definition getDOF (n : RigidBodyNode) : Z := Z.of_nat dof.

(** The default [getMaxNQ]. *)
Definition getMaxNQ (n : RigidBodyNode) : outcome Z :=
  c_assert (bool_decide (quaternionUse n = QuaternionIsNeverUsed));;
  Ok (Z.of_nat dof).

(** A call of the virtual [getMaxNQ()]. *)
Definition virtual_getMaxNQ (m : Mobilizer) (n : RigidBodyNode) : outcome Z :=
  match getMaxNQ_override m with
  | Some f => f n
  | None => getMaxNQ n
  end.

(** The counters are returned in the order of the arguments. *)
Definition updateSlots (m : Mobilizer) (n : RigidBodyNode)
    (nextUSlot nextUSqSlot nextQSlot : Z) : outcome (Z * Z * Z) :=
  nextUSlot' ← int_add nextUSlot (getDOF n);
  dd ← int_mul (getDOF n) (getDOF n);
  nextUSqSlot' ← int_add nextUSqSlot dd;
  maxNQ ← virtual_getMaxNQ m n;
  nextQSlot' ← int_add nextQSlot maxNQ;
  Ok (nextUSlot', nextUSqSlot', nextQSlot').

(** ** Composed defaults of the fit routines *)

Definition setQToFitTransformImpl (m : Mobilizer) (n : RigidBodyNode)
    (sbs : SBStateDigest) (X_FM : Transform) (q : Vector) : Vector :=
  let q := setQToFitRotationImpl m n sbs (X_R X_FM) q in
  let q := setQToFitTranslationImpl m n sbs (X_p X_FM) q in
  q.

Definition setUToFitVelocityImpl (m : Mobilizer) (n : RigidBodyNode)
    (sbs : SBStateDigest) (q : Vector) (V_FM : SpatialVec) (u : Vector) : Vector :=
  let u := setUToFitAngularVelocityImpl m n sbs q (sv0 V_FM) u in
  let u := setUToFitLinearVelocityImpl m n sbs q (sv1 V_FM) u in
  u.

(** ** Select-my-goodies-from-the-pool routines

    [fromQ(q)] is the value read through the reference the C++ returns;
    [toQ q v] is the array after the assignment [toQ(q) = v].  The overloads
    on a [Vector] pass [&q[0]], the same array. *)

Definition fromQ (n : RigidBodyNode) (q : list Real) : outcome (vec Real dof) :=
  getAs dof q (qIndex n).
Definition toQ (n : RigidBodyNode) (q : list Real) (v : vec Real dof) : outcome (list Real) :=
  updAs q (qIndex n) v.
Definition fromU (n : RigidBodyNode) (u : list Real) : outcome (vec Real dof) :=
  getAs dof u (uIndex n).
Definition toU (n : RigidBodyNode) (u : list Real) (v : vec Real dof) : outcome (list Real) :=
  updAs u (uIndex n) v.

(** [toQ(q) = e] and [toU(u) = e] for a scalar [e]. *)
Definition toQ_scalar (n : RigidBodyNode) (q : list Real) (e : Real) : outcome (list Real) :=
  updAs_scalar dof q (qIndex n) e.
Definition toU_scalar (n : RigidBodyNode) (u : list Real) (e : Real) : outcome (list Real) :=
  updAs_scalar dof u (uIndex n) e.

(** ** Cache entries *)

Definition getH_FM (n : RigidBodyNode) (pc : SBPositionCache) : outcome HType :=
  getAs dof (storageForH_FM pc) (uIndex n).
Definition updH_FM (n : RigidBodyNode) (pc : SBPositionCache) (H : HType)
  : outcome SBPositionCache :=
  st ← updAs (storageForH_FM pc) (uIndex n) H;
  Ok (mkSBPositionCache (sq pc) (cq pc) (qnorm pc) st (storageForH pc)
        (bodyJointInParentJointFrame pc) (bodyConfigInParent pc)
        (bodyConfigInGround pc) (positionCacheRest pc)).

Definition getH (n : RigidBodyNode) (pc : SBPositionCache) : outcome HType :=
  getAs dof (storageForH pc) (uIndex n).
Definition updH (n : RigidBodyNode) (pc : SBPositionCache) (H : HType)
  : outcome SBPositionCache :=
  st ← updAs (storageForH pc) (uIndex n) H;
  Ok (mkSBPositionCache (sq pc) (cq pc) (qnorm pc) (storageForH_FM pc) st
        (bodyJointInParentJointFrame pc) (bodyConfigInParent pc)
        (bodyConfigInGround pc) (positionCacheRest pc)).

Definition getHDot_FM (n : RigidBodyNode) (dc : SBDynamicsCache) : outcome HType :=
  getAs dof (storageForHDot_FM dc) (uIndex n).
Definition updHDot_FM (n : RigidBodyNode) (dc : SBDynamicsCache) (H : HType)
  : outcome SBDynamicsCache :=
  st ← updAs (storageForHDot_FM dc) (uIndex n) H;
  Ok (mkSBDynamicsCache st (storageForHDot dc)
        (bodyVelocityInParentDerivRemainder dc) (dynamicsCacheRest dc)).

Definition getHDot (n : RigidBodyNode) (dc : SBDynamicsCache) : outcome HType :=
  getAs dof (storageForHDot dc) (uIndex n).
Definition updHDot (n : RigidBodyNode) (dc : SBDynamicsCache) (H : HType)
  : outcome SBDynamicsCache :=
  st ← updAs (storageForHDot dc) (uIndex n) H;
  Ok (mkSBDynamicsCache (storageForHDot_FM dc) st
        (bodyVelocityInParentDerivRemainder dc) (dynamicsCacheRest dc)).

(** Get a column of H_PB_G. *)
Definition getHCol (n : RigidBodyNode) (pc : SBPositionCache) (j : Z) : outcome SpatialVec :=
  H ← getH n pc;
  getAt (vec_to_list H) j.

(** Modelled from the spec: the base class accessors of the per-body
    entries (section 3: "each node reads/writes only its own slice"; the
    parent's ground transform is read through "an explicit already realized
    accessor"). *)
Definition getX_FM (n : RigidBodyNode) (pc : SBPositionCache) : outcome Transform :=
  getAt (bodyJointInParentJointFrame pc) (nodeNum n).
Definition updX_FM (n : RigidBodyNode) (pc : SBPositionCache) (X : Transform)
  : outcome SBPositionCache :=
  a ← updAt (bodyJointInParentJointFrame pc) (nodeNum n) X;
  Ok (mkSBPositionCache (sq pc) (cq pc) (qnorm pc) (storageForH_FM pc)
        (storageForH pc) a (bodyConfigInParent pc) (bodyConfigInGround pc)
        (positionCacheRest pc)).

Definition getX_PB (n : RigidBodyNode) (pc : SBPositionCache) : outcome Transform :=
  getAt (bodyConfigInParent pc) (nodeNum n).
Definition updX_PB (n : RigidBodyNode) (pc : SBPositionCache) (X : Transform)
  : outcome SBPositionCache :=
  a ← updAt (bodyConfigInParent pc) (nodeNum n) X;
  Ok (mkSBPositionCache (sq pc) (cq pc) (qnorm pc) (storageForH_FM pc)
        (storageForH pc) (bodyJointInParentJointFrame pc) a
        (bodyConfigInGround pc) (positionCacheRest pc)).

Definition getX_GB (n : RigidBodyNode) (pc : SBPositionCache) : outcome Transform :=
  getAt (bodyConfigInGround pc) (nodeNum n).
Definition updX_GB (n : RigidBodyNode) (pc : SBPositionCache) (X : Transform)
  : outcome SBPositionCache :=
  a ← updAt (bodyConfigInGround pc) (nodeNum n) X;
  Ok (mkSBPositionCache (sq pc) (cq pc) (qnorm pc) (storageForH_FM pc)
        (storageForH pc) (bodyJointInParentJointFrame pc)
        (bodyConfigInParent pc) a (positionCacheRest pc)).

(** The parent's ground transform. *)
Definition getX_GP (n : RigidBodyNode) (pc : SBPositionCache) : outcome Transform :=
  getAt (bodyConfigInGround pc) (parentNum n).

Definition getV_FM (n : RigidBodyNode) (vc : SBVelocityCache) : outcome SpatialVec :=
  getAt (mobilizerRelativeVelocity vc) (nodeNum n).
Definition updV_FM (n : RigidBodyNode) (vc : SBVelocityCache) (V : SpatialVec)
  : outcome SBVelocityCache :=
  a ← updAt (mobilizerRelativeVelocity vc) (nodeNum n) V;
  Ok (mkSBVelocityCache a (bodyVelocityInParent vc) (velocityCacheRest vc)).

Definition getV_PB_G (n : RigidBodyNode) (vc : SBVelocityCache) : outcome SpatialVec :=
  getAt (bodyVelocityInParent vc) (nodeNum n).
Definition updV_PB_G (n : RigidBodyNode) (vc : SBVelocityCache) (V : SpatialVec)
  : outcome SBVelocityCache :=
  a ← updAt (bodyVelocityInParent vc) (nodeNum n) V;
  Ok (mkSBVelocityCache (mobilizerRelativeVelocity vc) a (velocityCacheRest vc)).

Definition getVD_PB_G (n : RigidBodyNode) (dc : SBDynamicsCache) : outcome SpatialVec :=
  getAt (bodyVelocityInParentDerivRemainder dc) (nodeNum n).
Definition updVD_PB_G (n : RigidBodyNode) (dc : SBDynamicsCache) (V : SpatialVec)
  : outcome SBDynamicsCache :=
  a ← updAt (bodyVelocityInParentDerivRemainder dc) (nodeNum n) V;
  Ok (mkSBDynamicsCache (storageForHDot_FM dc) (storageForHDot dc) a
        (dynamicsCacheRest dc)).

(** ** Position, velocity and dynamics kinematics *)

(** The two transforms are returned in the order of the reference
    arguments [X_PB], [X_GB]. *)
Definition calcBodyTransforms (n : RigidBodyNode) (pc : SBPositionCache)
  : outcome (Transform * Transform) :=
  let X_MB := getX_MB n in
  let X_PF := getX_PF n in
  X_FM ← getX_FM n pc;
  X_GP ← getX_GP n pc;
  let X_PB := X_mul (X_mul X_PF X_FM) X_MB in
  let X_GB := X_mul X_GP X_PB in
  Ok (X_PB, X_GB).

Definition calcJointKinematicsVel (n : RigidBodyNode) (pc : SBPositionCache)
    (u : Vector) (vc : SBVelocityCache) : outcome SBVelocityCache :=
  H_FM ← getH_FM n pc;
  u_n ← fromU n u;
  V_FM ← Mat_mul_Vec H_FM u_n;
  vc ← updV_FM n vc V_FM;
  H ← getH n pc;
  u_n ← fromU n u;
  V_PB_G ← Mat_mul_Vec H u_n;
  updV_PB_G n vc V_PB_G.

Definition calcJointDynamics (n : RigidBodyNode) (pc : SBPositionCache)
    (u : Vector) (vc : SBVelocityCache) (dc : SBDynamicsCache)
  : outcome SBDynamicsCache :=
  HDot ← getHDot n dc;
  u_n ← fromU n u;
  VD_PB_G ← Mat_mul_Vec HDot u_n;
  updVD_PB_G n dc VD_PB_G.

(** The default [calcQDot]; [sbs] is not used. *)
Definition calcQDot (n : RigidBodyNode) (sbs : SBStateDigest)
    (u : Vector) (qdot : Vector) : outcome Vector :=
  c_assert (bool_decide (qdotHandling n = QDotIsAlwaysTheSameAsU));;
  u_n ← fromU n u;
  toQ n qdot u_n.

(** The default [calcQDotDot]. *)
Definition calcQDotDot (n : RigidBodyNode) (sbs : SBStateDigest)
    (udot : Vector) (qdotdot : Vector) : outcome Vector :=
  c_assert (bool_decide (qdotHandling n = QDotIsAlwaysTheSameAsU));;
  udot_n ← fromU n udot;
  toQ n qdotdot udot_n.

(** A call of the virtual [calcQDot]. *)
Definition virtual_calcQDot (m : Mobilizer) (n : RigidBodyNode)
    (sbs : SBStateDigest) (u qdot : Vector) : outcome Vector :=
  match calcQDot_override m with
  | Some f => f n sbs u qdot
  | None => calcQDot n sbs u qdot
  end.

(** ** The realize stages *)

Definition realizeModel (n : RigidBodyNode) (sbs : SBStateDigest)
  : outcome SBStateDigest := Ok sbs.

Definition realizeInstance (n : RigidBodyNode) (sbs : SBStateDigest)
  : outcome SBStateDigest := Ok sbs.

Definition realizeTime (n : RigidBodyNode) (sbs : SBStateDigest)
  : outcome SBStateDigest := Ok sbs.

(** [realizePosition] is written in three steps, so that the digest each
    method is called with can be named.  The first is the call of
    [calcJointSinCosQNorm], which writes [pc.sq], [pc.cq], [pc.qnorm] and
    the q errors. *)
Definition realizePosition_sincos (m : Mobilizer) (n : RigidBodyNode)
    (sbs : SBStateDigest) : SBStateDigest :=
  let mv := getModelVars sbs in
  let mc := getModelCache sbs in
  let ic := getInstanceCache sbs in
  let pc := getPositionCache sbs in
  let '(sq', cq', qErr', qnorm') :=
    calcJointSinCosQNorm m n mv mc ic (getQ sbs) (sq pc) (cq pc) (getQErr sbs) (qnorm pc) in
  let pc := mkSBPositionCache sq' cq' qnorm' (storageForH_FM pc) (storageForH pc)
              (bodyJointInParentJointFrame pc) (bodyConfigInParent pc)
              (bodyConfigInGround pc) (positionCacheRest pc) in
  setQErr (setPositionCache sbs pc) qErr'.

(** The second step: the across-joint transform and [calcBodyTransforms]. *)
Definition realizePosition_transforms (m : Mobilizer) (n : RigidBodyNode)
    (sbs : SBStateDigest) : outcome SBStateDigest :=
  let sbs := realizePosition_sincos m n sbs in
  let pc := getPositionCache sbs in
  pc ← (if isReversed n then
          let X_MF := calcAcrossJointTransform m n sbs (getQ sbs) in
          updX_FM n pc (X_inv X_MF)
        else
          updX_FM n pc (calcAcrossJointTransform m n sbs (getQ sbs)));
  '(X_PB, X_GB) ← calcBodyTransforms n pc;
  pc ← updX_PB n pc X_PB;
  pc ← updX_GB n pc X_GB;
  Ok (setPositionCache sbs pc).

(** The third step: the Jacobians and the joint independent quantities,
    from the digest the second step leaves. *)
Definition realizePosition_jacobians (k : OutOfLine) (m : Mobilizer)
    (n : RigidBodyNode) (sbs : SBStateDigest) : outcome SBStateDigest :=
  let mv := getModelVars sbs in
  let pc := getPositionCache sbs in
  pc ← (if isReversed n then updH_FM n pc (calcReverseMobilizerH_FM m n sbs)
        else updH_FM n pc (calcAcrossJointVelocityJacobian m n sbs));
  pc ← updH n pc (calcParentToChildVelocityJacobianInGround k n mv pc);
  let pc := calcJointIndependentKinematicsPos k n pc in
  Ok (setPositionCache sbs pc).

Definition realizePosition (k : OutOfLine) (m : Mobilizer) (n : RigidBodyNode)
    (sbs : SBStateDigest) : outcome SBStateDigest :=
  sbs ← realizePosition_transforms m n sbs;
  realizePosition_jacobians k m n sbs.

Definition realizeVelocity (k : OutOfLine) (m : Mobilizer) (n : RigidBodyNode)
    (sbs : SBStateDigest) : outcome SBStateDigest :=
  let pc := getPositionCache sbs in
  let vc := getVelocityCache sbs in
  qdot ← virtual_calcQDot m n sbs (getU sbs) (getQDot sbs);
  let sbs := setQDot sbs qdot in
  vc ← calcJointKinematicsVel n pc (getU sbs) vc;
  let vc := calcJointIndependentKinematicsVel k n pc vc in
  Ok (setVelocityCache sbs vc).

Definition realizeDynamics (k : OutOfLine) (m : Mobilizer) (n : RigidBodyNode)
    (sbs : SBStateDigest) : outcome SBStateDigest :=
  let mv := getModelVars sbs in
  let pc := getPositionCache sbs in
  let vc := getVelocityCache sbs in
  let dc := getDynamicsCache sbs in
  dc ← (if isReversed n then updHDot_FM n dc (calcReverseMobilizerHDot_FM m n sbs)
        else updHDot_FM n dc (calcAcrossJointVelocityJacobianDot m n sbs));
  dc ← updHDot n dc (calcParentToChildVelocityJacobianInGroundDot k n mv pc vc dc);
  dc ← calcJointDynamics n pc (getU sbs) vc dc;
  let dc := calcJointIndependentDynamicsVel k n pc vc dc in
  Ok (setDynamicsCache sbs dc).

Definition realizeAcceleration (n : RigidBodyNode) (sbs : SBStateDigest)
  : outcome SBStateDigest := Ok sbs.

Definition realizeReport (n : RigidBodyNode) (sbs : SBStateDigest)
  : outcome SBStateDigest := Ok sbs.

(** ** Default installers of the stage values *)

Definition setMobilizerDefaultModelValues (n : RigidBodyNode)
    (tc : SBTopologyCache) (mv : SBModelVars) : SBModelVars := mv.
Definition setMobilizerDefaultInstanceValues (n : RigidBodyNode)
    (mv : SBModelVars) (iv : SBInstanceVars) : SBInstanceVars := iv.
Definition setMobilizerDefaultTimeValues (n : RigidBodyNode)
    (mv : SBModelVars) (tv : SBTimeVars) : SBTimeVars := tv.

Definition setMobilizerDefaultPositionValues (n : RigidBodyNode)
    (s : SBModelVars) (q : Vector) : outcome Vector :=
  toQ_scalar n q 0%float.
Definition setMobilizerDefaultVelocityValues (n : RigidBodyNode)
    (s : SBModelVars) (u : Vector) : outcome Vector :=
  toU_scalar n u 0%float.

Definition setMobilizerDefaultDynamicsValues (n : RigidBodyNode)
    (mv : SBModelVars) (dv : SBDynamicsVars) : SBDynamicsVars := dv.
Definition setMobilizerDefaultAccelerationValues (n : RigidBodyNode)
    (mv : SBModelVars) (v : SBDynamicsVars) : SBDynamicsVars := v.

(** ** Copies and coordinate counts *)

Definition copyQ (n : RigidBodyNode) (mv : SBModelVars) (qIn : Vector) (q : Vector)
  : outcome Vector :=
  c_assert (bool_decide (quaternionUse n = QuaternionIsNeverUsed));;
  qIn_n ← fromQ n qIn;
  toQ n q qIn_n.

Definition copyU (n : RigidBodyNode) (mv : SBModelVars) (uIn : Vector) (u : Vector)
  : outcome Vector :=
  uIn_n ← fromU n uIn;
  toU n u uIn_n.

Definition getNQInUse (n : RigidBodyNode) (mv : SBModelVars) : outcome Z :=
  c_assert (bool_decide (quaternionUse n = QuaternionIsNeverUsed));;
  Ok (Z.of_nat dof).

Definition getNUInUse (n : RigidBodyNode) (mv : SBModelVars) : Z := Z.of_nat dof.

(** A [MobilizerQIndex] after [invalidate()] is [None].  The result pairs
    the returned flag with [startOfQuaternion]. *)
Definition isUsingQuaternion (n : RigidBodyNode) (sbs : SBStateDigest)
  : outcome (bool * option Z) :=
  c_assert (bool_decide (quaternionUse n = QuaternionIsNeverUsed));;
  Ok (false, None).

Definition calcLocalQDotFromLocalU (n : RigidBodyNode) (sbs : SBStateDigest)
    (u : list Real) (qdot : list Real) : outcome (list Real) :=
  c_assert (bool_decide (qdotHandling n = QDotIsAlwaysTheSameAsU));;
  v ← getAs dof u 0;
  updAs qdot 0 v.

Definition calcLocalQDotDotFromLocalUDot (n : RigidBodyNode) (sbs : SBStateDigest)
    (udot : list Real) (qdotdot : list Real) : outcome (list Real) :=
  c_assert (bool_decide (qdotHandling n = QDotIsAlwaysTheSameAsU));;
  v ← getAs dof udot 0;
  updAs qdotdot 0 v.

Definition multiplyByN (n : RigidBodyNode) (sbs : SBStateDigest)
    (useEulerAnglesIfPossible : bool) (q : list Real) (matrixOnRight : bool)
    (input : list Real) (out : list Real) : outcome (list Real) :=
  c_assert (bool_decide (qdotHandling n = QDotIsAlwaysTheSameAsU));;
  v ← getAs dof input 0;
  updAs out 0 v.

Definition multiplyByNInv (n : RigidBodyNode) (sbs : SBStateDigest)
    (useEulerAnglesIfPossible : bool) (q : list Real) (matrixOnRight : bool)
    (input : list Real) (out : list Real) : outcome (list Real) :=
  c_assert (bool_decide (qdotHandling n = QDotIsAlwaysTheSameAsU));;
  v ← getAs dof input 0;
  updAs out 0 v.

(** The result is the returned flag with [q] and [qErrest] as the call
    leaves them. *)
Definition enforceQuaternionConstraints (n : RigidBodyNode) (sbs : SBStateDigest)
    (q : Vector) (qErrest : Vector) : outcome (bool * Vector * Vector) :=
  c_assert (bool_decide (quaternionUse n = QuaternionIsNeverUsed));;
  Ok (false, q, qErrest).

Definition convertToEulerAngles (n : RigidBodyNode) (inputQ : Vector)
    (outputQ : Vector) : outcome Vector :=
  c_assert (bool_decide (quaternionUse n = QuaternionIsNeverUsed));;
  v ← fromQ n inputQ;
  toQ n outputQ v.

Definition convertToQuaternions (n : RigidBodyNode) (inputQ : Vector)
    (outputQ : Vector) : outcome Vector :=
  c_assert (bool_decide (quaternionUse n = QuaternionIsNeverUsed));;
  v ← fromQ n inputQ;
  toQ n outputQ v.

End Spec.

Arguments calcJointSinCosQNorm {SP SC dof}.
Arguments calcAcrossJointTransform {SP SC dof}.
Arguments calcAcrossJointVelocityJacobian {SP SC dof}.
Arguments calcAcrossJointVelocityJacobianDot {SP SC dof}.
Arguments calcReverseMobilizerH_FM {SP SC dof}.
Arguments calcReverseMobilizerHDot_FM {SP SC dof}.
Arguments setQToFitRotationImpl {SP SC dof}.
Arguments setQToFitTranslationImpl {SP SC dof}.
Arguments setUToFitAngularVelocityImpl {SP SC dof}.
Arguments setUToFitLinearVelocityImpl {SP SC dof}.
Arguments getMaxNQ_override {SP SC dof}.
Arguments calcQDot_override {SP SC dof}.
Arguments calcParentToChildVelocityJacobianInGround {SP SC dof}.
Arguments calcParentToChildVelocityJacobianInGroundDot {SP SC dof}.
Arguments calcJointIndependentKinematicsPos {SP SC dof}.
Arguments calcJointIndependentKinematicsVel {SP SC dof}.
Arguments calcJointIndependentDynamicsVel {SP SC dof}.

(** ** Building the nodes of a tree one after the other

    Modelled from the spec: section 3, "Slot indices are assigned once,
    densely, at tree-build time" and section 6, "Node construction".  The
    tree builder is not in src.  It keeps the three counters; for each
    mobilizer it constructs the node of the requested class with the
    current counters and then lets the node advance them with
    [updateSlots]. *)

Section Build.
Context {SP : SpatialPrimitives} {SC : StateContainer}.

(** What the builder is asked for: the class (its [dof] and its virtual
    methods) and the constructor arguments. *)
Record NodeRequest : Type := mkNodeRequest {
  req_dof : nat;
  req_class : Mobilizer req_dof;
  req_mProps_B : MassProperties;
  req_X_PF : Transform;
  req_X_BM : Transform;
  req_qdotHandling : QDotHandling;
  req_quaternionUse : QuaternionUse;
  req_isReversed : bool;
}.

(** A constructed node: its class and its data. *)
Record Node : Type := mkNode {
  node_dof : nat;
  node_class : Mobilizer node_dof;
  node_data : RigidBodyNode;
}.

Definition createNode (r : NodeRequest) (nextUSlot nextUSqSlot nextQSlot : Z)
  : outcome (Node * (Z * Z * Z)) :=
  let n :=
    RigidBodyNodeSpec_ctor (req_mProps_B r) (req_X_PF r) (req_X_BM r)
      nextUSlot nextUSqSlot nextQSlot
      (req_qdotHandling r) (req_quaternionUse r) (req_isReversed r) in
  next ← updateSlots (req_dof r) (req_class r) n nextUSlot nextUSqSlot nextQSlot;
  Ok (mkNode (req_dof r) (req_class r) n, next).

Fixpoint createNodes (rs : list NodeRequest) (nextUSlot nextUSqSlot nextQSlot : Z)
  : outcome (list Node * (Z * Z * Z)) :=
  match rs with
  | [] => Ok ([], (nextUSlot, nextUSqSlot, nextQSlot))
  | r :: rs' =>
      '(nd, (u, usq, q)) ← createNode r nextUSlot nextUSqSlot nextQSlot;
      '(nds, next) ← createNodes rs' u usq q;
      Ok (nd :: nds, next)
  end.

(** The number of q slots a constructed node takes. *)
Definition node_maxNQ (nd : Node) : outcome Z :=
  virtual_getMaxNQ (node_dof nd) (node_class nd) (node_data nd).

End Build.

(** ** Vocabulary of the statements *)

(** The [n] elements of [a] from index [off]. *)
Definition slice {E : Type} (a : list E) (off : Z) (n : nat) : list E :=
  take n (drop (Z.to_nat off) a).

(** [a'] is [a] except, possibly, on the [n] entries from index [off]. *)
Definition same_outside {E : Type} (a' a : list E) (off : Z) (n : nat) : Prop :=
  length a' = length a /\
  take (Z.to_nat off) a' = take (Z.to_nat off) a /\
  drop (Z.to_nat off + n) a' = drop (Z.to_nat off + n) a.

(** [off .. off + n - 1] are indices of [a]. *)
Definition in_range {E : Type} (a : list E) (off : Z) (n : nat) : Prop :=
  0 <= off /\ off + Z.of_nat n <= Z.of_nat (length a).

(** [i] is an index of the per-body array [a]. *)
Definition has_body {E : Type} (a : list E) (i : Z) : Prop :=
  0 <= i < Z.of_nat (length a).

(** Slices given as (first index, size), laid end to end from [start] to
    [stop]: each begins where the one before it ends. *)
Fixpoint dense_from (start : Z) (slices : list (Z * Z)) (stop : Z) : Prop :=
  match slices with
  | [] => start = stop
  | (ix, size) :: rest => ix = start /\ dense_from (start + size) rest stop
  end.

(** No slice reaches into a later one. *)
Definition disjoint_slices (slices : list (Z * Z)) : Prop :=
  forall (i j : nat) (a b : Z * Z),
    (i < j)%nat -> slices !! i = Some a -> slices !! j = Some b ->
    a.1 + a.2 <= b.1.

Section Slots.
Context {SP : SpatialPrimitives} {SC : StateContainer}.
Variable dof : nat.

(** The state container has allocated the entries [realizePosition] writes
    for node [n] (section 6: it "preallocates all stage-cache storage"). *)
Definition position_slots (n : RigidBodyNode) (pc : SBPositionCache) : Prop :=
  has_body (bodyJointInParentJointFrame pc) (nodeNum n) /\
  has_body (bodyConfigInParent pc) (nodeNum n) /\
  has_body (bodyConfigInGround pc) (nodeNum n) /\
  has_body (bodyConfigInGround pc) (parentNum n) /\
  in_range (storageForH_FM pc) (uIndex n) dof /\
  in_range (storageForH pc) (uIndex n) dof.

(** The same for what [calcJointKinematicsVel] reads and writes. *)
Definition velocity_slots (n : RigidBodyNode) (pc : SBPositionCache)
    (u : Vector) (vc : SBVelocityCache) : Prop :=
  (0 < dof)%nat /\
  in_range (storageForH_FM pc) (uIndex n) dof /\
  in_range (storageForH pc) (uIndex n) dof /\
  in_range u (uIndex n) dof /\
  has_body (mobilizerRelativeVelocity vc) (nodeNum n) /\
  has_body (bodyVelocityInParent vc) (nodeNum n).

(** The same for [realizeDynamics]. *)
Definition dynamics_slots (n : RigidBodyNode) (u : Vector) (dc : SBDynamicsCache)
  : Prop :=
  (0 < dof)%nat /\
  in_range (storageForHDot_FM dc) (uIndex n) dof /\
  in_range (storageForHDot dc) (uIndex n) dof /\
  in_range u (uIndex n) dof /\
  has_body (bodyVelocityInParentDerivRemainder dc) (nodeNum n).

(** The class [m] with other as-defined Jacobian methods. *)
Definition with_as_defined (m : Mobilizer dof)
    (J JDot : RigidBodyNode -> SBStateDigest -> HType dof) : Mobilizer dof :=
  mkMobilizer dof (calcJointSinCosQNorm m) (calcAcrossJointTransform m)
    J JDot
    (calcReverseMobilizerH_FM m) (calcReverseMobilizerHDot_FM m)
    (setQToFitRotationImpl m) (setQToFitTranslationImpl m)
    (setUToFitAngularVelocityImpl m) (setUToFitLinearVelocityImpl m)
    (getMaxNQ_override m) (calcQDot_override m).

(** The class [m] with [getMaxNQ] overridden by [f]. *)
Definition with_getMaxNQ (m : Mobilizer dof) (f : RigidBodyNode -> outcome Z)
  : Mobilizer dof :=
  mkMobilizer dof (calcJointSinCosQNorm m) (calcAcrossJointTransform m)
    (calcAcrossJointVelocityJacobian m) (calcAcrossJointVelocityJacobianDot m)
    (calcReverseMobilizerH_FM m) (calcReverseMobilizerHDot_FM m)
    (setQToFitRotationImpl m) (setQToFitTranslationImpl m)
    (setUToFitAngularVelocityImpl m) (setUToFitLinearVelocityImpl m)
    (Some f) (calcQDot_override m).

End Slots.

(** The slices of the u, u-squared and q arrays that constructed nodes
    hold; the size of a q slice is the node's [getMaxNQ()]. *)
Section NodeSlices.
Context {SP : SpatialPrimitives} {SC : StateContainer}.

Definition u_slice (nd : Node) : Z * Z :=
  (uIndex (node_data nd), Z.of_nat (node_dof nd)).
Definition uSq_slice (nd : Node) : Z * Z :=
  (uSqIndex (node_data nd), Z.of_nat (node_dof nd) * Z.of_nat (node_dof nd)).
Definition q_slice (nd : Node) (maxNQ : Z) : Z * Z :=
  (qIndex (node_data nd), maxNQ).

End NodeSlices.

(** ** The other select-my-goodies routines

    The scalar forms for one mobility, the u-squared block, the quaternion
    and the [Vec3] at an offset. *)

Definition Vec3_of_vec (v : vec Real 3) : Vec3 :=
  mkVec3 (v !!! 0%fin) (v !!! 1%fin) (v !!! 2%fin).
Definition vec_of_Vec3 (p : Vec3) : vec Real 3 :=
  [# v3x p; v3y p; v3z p].

Section Accessors.
Context {SP : SpatialPrimitives} {SC : StateContainer}.
Variable dof : nat.

(** [Mat<dof,dof>::getAs(&uSq[uSqIndex])]: the [dof*dof] entries of the
    block, as they lie in the array. *)
Definition fromUSq (n : RigidBodyNode) (uSq : list Real)
  : outcome (vec Real (dof * dof)) :=
  getAs (dof * dof) uSq (uSqIndex n).
Definition toUSq (n : RigidBodyNode) (uSq : list Real) (D : vec Real (dof * dof))
  : outcome (list Real) :=
  updAs uSq (uSqIndex n) D.

Definition from1Q (n : RigidBodyNode) (q : list Real) : outcome Real :=
  getAt q (qIndex n).
Definition to1Q (n : RigidBodyNode) (q : list Real) (x : Real) : outcome (list Real) :=
  updAt q (qIndex n) x.
Definition from1U (n : RigidBodyNode) (u : list Real) : outcome Real :=
  getAt u (uIndex n).
Definition to1U (n : RigidBodyNode) (u : list Real) (x : Real) : outcome (list Real) :=
  updAt u (uIndex n) x.
Definition from1USq (n : RigidBodyNode) (uSq : list Real) : outcome Real :=
  getAt uSq (uSqIndex n).
Definition to1USq (n : RigidBodyNode) (uSq : list Real) (x : Real)
  : outcome (list Real) :=
  updAt uSq (uSqIndex n) x.

Definition fromQuat (n : RigidBodyNode) (q : list Real) : outcome (vec Real 4) :=
  getAs 4 q (qIndex n).
Definition toQuat (n : RigidBodyNode) (q : list Real) (v : vec Real 4)
  : outcome (list Real) :=
  updAs q (qIndex n) v.

(** [qIndex+offs] and [uIndex+offs] are [int] sums. *)
Definition fromQVec3 (n : RigidBodyNode) (q : list Real) (offs : Z) : outcome Vec3 :=
  i ← int_add (qIndex n) offs;
  v ← getAs 3 q i;
  Ok (Vec3_of_vec v).
Definition toQVec3 (n : RigidBodyNode) (q : list Real) (offs : Z) (p : Vec3)
  : outcome (list Real) :=
  i ← int_add (qIndex n) offs;
  updAs q i (vec_of_Vec3 p).
Definition fromUVec3 (n : RigidBodyNode) (u : list Real) (offs : Z) : outcome Vec3 :=
  i ← int_add (uIndex n) offs;
  v ← getAs 3 u i;
  Ok (Vec3_of_vec v).
Definition toUVec3 (n : RigidBodyNode) (u : list Real) (offs : Z) (p : Vec3)
  : outcome (list Real) :=
  i ← int_add (uIndex n) offs;
  updAs u i (vec_of_Vec3 p).

End Accessors.

(** The class [m] with other reversed-mobilizer methods. *)
Definition with_adapters {SP : SpatialPrimitives} {SC : StateContainer}
    (dof : nat) (m : Mobilizer dof)
    (A ADot : RigidBodyNode -> SBStateDigest -> HType dof) : Mobilizer dof :=
  mkMobilizer dof (calcJointSinCosQNorm m) (calcAcrossJointTransform m)
    (calcAcrossJointVelocityJacobian m) (calcAcrossJointVelocityJacobianDot m)
    A ADot
    (setQToFitRotationImpl m) (setQToFitTranslationImpl m)
    (setUToFitAngularVelocityImpl m) (setUToFitLinearVelocityImpl m)
    (getMaxNQ_override m) (calcQDot_override m).

(** ** Installing the defaults of every node

    Modelled from the spec: section 6, "Default-value installers": the
    state initialization (not in src) "calls these once per node".  Here
    it calls the default velocity installer of the header for each node in
    turn, on the same [u]. *)
Section Install.
Context {SP : SpatialPrimitives} {SC : StateContainer}.

Fixpoint installDefaultVelocities (nds : list Node) (mv : SBModelVars) (u : Vector)
  : outcome Vector :=
  match nds with
  | [] => Ok u
  | nd :: nds' =>
      u ← setMobilizerDefaultVelocityValues (node_dof nd) (node_data nd) mv u;
      installDefaultVelocities nds' mv u
  end.

(** The requests and the nodes that leave every virtual method with a
    default in the header at that default. *)
Definition no_overrides (r : NodeRequest) : Prop :=
  getMaxNQ_override (req_class r) = None.

End Install.

(** ** A small system to run the definitions on

    A reference implementation of the transform primitives on [double]s, a
    state container with nothing besides what the header names, and two
    mobilizer classes: a slider along the z axis of F (one mobility) and a
    Cartesian joint (three translational mobilities). *)

Module Example.

Record Mat33 : Type := mkMat33 { row0 : Vec3; row1 : Vec3; row2 : Vec3 }.
Record RefTransform : Type := mkRefTransform { refR : Mat33; refp : Vec3 }.

Definition dot3 (a b : Vec3) : Real :=
  (v3x a * v3x b + v3y a * v3y b + v3z a * v3z b)%float.
Definition Vec3_neg (a : Vec3) : Vec3 :=
  mkVec3 (- v3x a)%float (- v3y a)%float (- v3z a)%float.
Definition Mat33_transpose (R : Mat33) : Mat33 :=
  mkMat33 (mkVec3 (v3x (row0 R)) (v3x (row1 R)) (v3x (row2 R)))
          (mkVec3 (v3y (row0 R)) (v3y (row1 R)) (v3y (row2 R)))
          (mkVec3 (v3z (row0 R)) (v3z (row1 R)) (v3z (row2 R))).
Definition Mat33_mul_Vec3 (R : Mat33) (v : Vec3) : Vec3 :=
  mkVec3 (dot3 (row0 R) v) (dot3 (row1 R) v) (dot3 (row2 R) v).
Definition Mat33_mul (A B : Mat33) : Mat33 :=
  let Bt := Mat33_transpose B in
  mkMat33 (Mat33_mul_Vec3 Bt (row0 A)) (Mat33_mul_Vec3 Bt (row1 A))
          (Mat33_mul_Vec3 Bt (row2 A)).
Definition Mat33_identity : Mat33 :=
  mkMat33 (mkVec3 1 0 0) (mkVec3 0 1 0) (mkVec3 0 0 1).

Definition refPrimitives : SpatialPrimitives := {|
  Rotation := Mat33;
  Transform := RefTransform;
  X_R := refR;
  X_p := refp;
  X_mul := fun X1 X2 =>
    mkRefTransform (Mat33_mul (refR X1) (refR X2))
      (Vec3_add (refp X1) (Mat33_mul_Vec3 (refR X1) (refp X2)));
  X_inv := fun X =>
    let Rt := Mat33_transpose (refR X) in
    mkRefTransform Rt (Vec3_neg (Mat33_mul_Vec3 Rt (refp X)));
|}.

Definition emptyContainer : StateContainer := {|
  MassProperties := unit;
  SBTopologyCache := unit;
  SBModelVars := unit;
  SBModelCache := unit;
  SBInstanceVars := unit;
  SBInstanceCache := unit;
  SBTimeVars := unit;
  SBDynamicsVars := unit;
  SBPositionCacheRest := unit;
  SBVelocityCacheRest := unit;
  SBDynamicsCacheRest := unit;
  SBAccelerationCache := unit;
  SBStateDigestRest := unit;
|}.

#[local] Existing Instance refPrimitives.
#[local] Existing Instance emptyContainer.

Definition translation (p : Vec3) : Transform := mkRefTransform Mat33_identity p.
Definition zero3 : Vec3 := mkVec3 0 0 0.

(** [a[i]], or zero outside the array; [a[i] = x], or nothing outside. *)
Definition read (a : Vector) (i : Z) : Real :=
  match getAt a i with Ok x => x | _ => 0%float end.
Definition write (a : Vector) (i : Z) (x : Real) : Vector :=
  match updAt a i x with Ok a' => a' | _ => a end.

(** A slider: M is F moved by q along z.  It has no angle, so nothing to
    precalculate and no rotation to fit. *)
Definition Slider : Mobilizer 1 :=
  mkMobilizer 1
    (fun n mv mc ic q sq cq qErr qnorm => (sq, cq, qErr, qnorm))
    (fun n sbs q => translation (mkVec3 0 0 (read q (qIndex n))))
    (fun n sbs => [# mkSpatialVec zero3 (mkVec3 0 0 1)])
    (fun n sbs => [# mkSpatialVec zero3 zero3])
    (fun n sbs => [# mkSpatialVec zero3 (mkVec3 0 0 (-1))])
    (fun n sbs => [# mkSpatialVec zero3 zero3])
    (fun n sbs R q => q)
    (fun n sbs p q => write q (qIndex n) (v3z p))
    (fun n sbs q w u => u)
    (fun n sbs q v u => write u (uIndex n) (v3z v))
    None None.

(** A Cartesian joint: M is F moved by (q0, q1, q2). *)
Definition Cartesian : Mobilizer 3 :=
  mkMobilizer 3
    (fun n mv mc ic q sq cq qErr qnorm => (sq, cq, qErr, qnorm))
    (fun n sbs q =>
       translation (mkVec3 (read q (qIndex n)) (read q (qIndex n + 1))
                           (read q (qIndex n + 2))))
    (fun n sbs => [# mkSpatialVec zero3 (mkVec3 1 0 0);
                     mkSpatialVec zero3 (mkVec3 0 1 0);
                     mkSpatialVec zero3 (mkVec3 0 0 1)])
    (fun n sbs => [# mkSpatialVec zero3 zero3; mkSpatialVec zero3 zero3;
                     mkSpatialVec zero3 zero3])
    (fun n sbs => [# mkSpatialVec zero3 (mkVec3 (-1) 0 0);
                     mkSpatialVec zero3 (mkVec3 0 (-1) 0);
                     mkSpatialVec zero3 (mkVec3 0 0 (-1))])
    (fun n sbs => [# mkSpatialVec zero3 zero3; mkSpatialVec zero3 zero3;
                     mkSpatialVec zero3 zero3])
    (fun n sbs R q => q)
    (fun n sbs p q =>
       write (write (write q (qIndex n) (v3x p)) (qIndex n + 1) (v3y p))
             (qIndex n + 2) (v3z p))
    (fun n sbs q w u => u)
    (fun n sbs q v u =>
       write (write (write u (uIndex n) (v3x v)) (uIndex n + 1) (v3y v))
             (uIndex n + 2) (v3z v))
    None None.

(** A class that keeps four coordinates for its three mobilities, as a
    quaternion joint does: it overrides [getMaxNQ]. *)
Definition FourQ : Mobilizer 3 := with_getMaxNQ 3 Cartesian (fun _ => Ok 4).

(** The methods defined outside the header, for the example: the ground
    frame Jacobian is the F frame one (the frames are parallel in the
    example), its derivative is zero, and the joint independent passes have
    nothing to add to a cache without further entries. *)
Definition refOutOfLine (dof : nat) : OutOfLine dof :=
  mkOutOfLine dof
    (fun n mv pc => match getH_FM dof n pc with
                    | Ok H => H
                    | _ => vreplicate dof (mkSpatialVec zero3 zero3)
                    end)
    (fun n mv pc vc dc => vreplicate dof (mkSpatialVec zero3 zero3))
    (fun n pc => pc)
    (fun n pc vc => vc)
    (fun n pc vc dc => dc).

(** Body 1 of a two-body tree (ground is body 0); its mobility is the
    second one (index 1) and its coordinate the third (index 2). *)
Definition node1 (reversed' : bool) (qu : QuaternionUse) : RigidBodyNode :=
  mkRigidBodyNode tt (translation (mkVec3 1 0 0)) (translation (mkVec3 0 2 0))
    QDotIsAlwaysTheSameAsU qu reversed' 1 0 1 1 2.

Definition n1 : RigidBodyNode := node1 false QuaternionIsNeverUsed.
Definition n1r : RigidBodyNode := node1 true QuaternionIsNeverUsed.
Definition n1q : RigidBodyNode := node1 false QuaternionMayBeUsed.

Definition pc0 : SBPositionCache :=
  mkSBPositionCache [0; 0; 0]%float [0; 0; 0]%float [0; 0; 0]%float
    [mkSpatialVec zero3 zero3; mkSpatialVec (mkVec3 0 0 1) zero3]
    [mkSpatialVec zero3 zero3; mkSpatialVec (mkVec3 0 0 1) zero3]
    [translation zero3; translation zero3]
    [translation zero3; translation zero3]
    [translation (mkVec3 0 0 10); translation zero3]
    tt.

Definition vc0 : SBVelocityCache :=
  mkSBVelocityCache [mkSpatialVec zero3 zero3; mkSpatialVec zero3 zero3]
    [mkSpatialVec zero3 zero3; mkSpatialVec zero3 zero3] tt.

Definition dc0 : SBDynamicsCache :=
  mkSBDynamicsCache [mkSpatialVec zero3 zero3; mkSpatialVec zero3 zero3]
    [mkSpatialVec zero3 zero3; mkSpatialVec zero3 zero3]
    [mkSpatialVec zero3 zero3; mkSpatialVec zero3 zero3] tt.

(** q = (0, 0, 3), u = (7, 2). *)
Definition digest0 : SBStateDigest :=
  mkSBStateDigest tt tt tt pc0 vc0 dc0 tt
    [0; 0; 3]%float [7; 2]%float [0; 0; 0]%float [0; 0; 0]%float tt.

Definition request (dof : nat) (c : Mobilizer dof) (qu : QuaternionUse)
  : NodeRequest :=
  mkNodeRequest dof c tt (translation zero3) (translation zero3)
    QDotIsAlwaysTheSameAsU qu false.

(** A slider, a class with four coordinates and a slider, built from
    counters at zero. *)
Definition three_requests : list NodeRequest :=
  [request 1 Slider QuaternionIsNeverUsed;
   request 3 FourQ QuaternionMayBeUsed;
   request 1 Slider QuaternionIsNeverUsed].

Definition three_nodes : list Node :=
  match createNodes three_requests 0 0 0 with
  | Ok (nds, _) => nds
  | _ => []
  end.

(** The value a call returns, or [d] when it does not return. *)
Definition returned {A : Type} (d : A) (o : outcome A) : A :=
  match o with Ok a => a | _ => d end.

(** Body 0 with the first mobility and the first coordinate; a node whose
    qdot may differ from u and that may use a quaternion; and a node with
    seven coordinates from index 1, a quaternion and a translation. *)
Definition n0 : RigidBodyNode :=
  mkRigidBodyNode tt (translation zero3) (translation zero3)
    QDotIsAlwaysTheSameAsU QuaternionIsNeverUsed false 0 0 0 0 0.
Definition n1d : RigidBodyNode :=
  mkRigidBodyNode tt (translation zero3) (translation zero3)
    QDotMayDifferFromU QuaternionMayBeUsed false 1 0 1 1 2.
Definition nfree : RigidBodyNode :=
  mkRigidBodyNode tt (translation zero3) (translation zero3)
    QDotMayDifferFromU QuaternionMayBeUsed false 1 0 1 1 1.

(** The i-th of the three nodes built above. *)
Definition built (i : nat) : Node :=
  default (mkNode 1 Slider n1) (three_nodes !! i).

(** A slider and a Cartesian joint, both with the defaults of the header. *)
Definition two_requests : list NodeRequest :=
  [request 1 Slider QuaternionIsNeverUsed;
   request 3 Cartesian QuaternionIsNeverUsed].
Definition two_nodes : list Node :=
  match createNodes two_requests 0 0 0 with
  | Ok (nds, _) => nds
  | _ => []
  end.


End Example.

(** * Lemmas *)

Lemma bind_Ok {A B : Type} (f : A -> outcome B) (a : A) : (Ok a ≫= f) = f a.
Proof. reflexivity. Qed.

Lemma read_vec_take {E : Type} (n : nat) (l : list E) :
  (n <= length l)%nat ->
  exists v : vec E n, read_vec n l = Some v /\ vec_to_list v = take n l.
Proof.
  revert l. induction n as [|n IH]; intros l Hl.
  - exists [#]. split; reflexivity.
  - destruct l as [|x l]; simpl in Hl; [lia|].
    destruct (IH l) as (v & Hv & Hlist); [lia|].
    exists (x ::: v). simpl. rewrite Hv. simpl. split; [reflexivity|].
    f_equal. exact Hlist.
Qed.

Lemma read_vec_short {E : Type} (n : nat) (l : list E) :
  (length l < n)%nat -> read_vec n l = None.
Proof.
  revert l. induction n as [|n IH]; intros l Hl; [lia|].
  destruct l as [|x l]; simpl in *; [reflexivity|].
  rewrite IH by lia. reflexivity.
Qed.

Lemma getAs_Ok {E : Type} (n : nat) (a : list E) (off : Z) :
  in_range a off n ->
  exists v : vec E n, getAs n a off = Ok v /\ vec_to_list v = slice a off n.
Proof.
  intros [H0 H1]. unfold getAs, slice.
  destruct (Z.leb_spec 0 off) as [_|]; [|lia].
  destruct (Z.leb_spec (off + Z.of_nat n) (Z.of_nat (length a))); [|lia].
  destruct (read_vec_take n (drop (Z.to_nat off) a)) as (v & Hv & Hl).
  { rewrite length_drop. lia. }
  exists v. simpl. rewrite Hv. split; [reflexivity | exact Hl].
Qed.

Lemma getAs_Undefined {E : Type} (n : nat) (a : list E) (off : Z) :
  ~ in_range a off n -> getAs n a off = Undefined.
Proof.
  intros H. unfold getAs, in_range in *.
  destruct (Z.leb_spec 0 off) as [H0|]; [|reflexivity].
  destruct (Z.leb_spec (off + Z.of_nat n) (Z.of_nat (length a))); [lia|].
  reflexivity.
Qed.

Lemma updAs_Ok {E : Type} {n : nat} (a : list E) (off : Z) (v : vec E n) :
  in_range a off n ->
  updAs a off v = Ok (list_inserts (Z.to_nat off) (vec_to_list v) a).
Proof.
  intros [H0 H1]. unfold updAs.
  destruct (Z.leb_spec 0 off); [|lia].
  destruct (Z.leb_spec (off + Z.of_nat n) (Z.of_nat (length a))); [|lia].
  reflexivity.
Qed.

Lemma updAs_Undefined {E : Type} {n : nat} (a : list E) (off : Z) (v : vec E n) :
  ~ in_range a off n -> updAs a off v = Undefined.
Proof.
  intros H. unfold updAs, in_range in *.
  destruct (Z.leb_spec 0 off); [|reflexivity].
  destruct (Z.leb_spec (off + Z.of_nat n) (Z.of_nat (length a))); [lia|].
  reflexivity.
Qed.

Lemma slice_inserts {E : Type} (a k : list E) (off : Z) :
  0 <= off -> off + Z.of_nat (length k) <= Z.of_nat (length a) ->
  slice (list_inserts (Z.to_nat off) k a) off (length k) = k.
Proof.
  intros H0 H1. unfold slice. apply list_eq. intros j.
  destruct (decide (j < length k)%nat) as [Hj|Hj].
  - rewrite lookup_take_lt by lia. rewrite lookup_drop.
    rewrite list_lookup_inserts by lia. f_equal. lia.
  - rewrite lookup_take_ge by lia. symmetry. apply lookup_ge_None. lia.
Qed.

Lemma same_outside_inserts {E : Type} (a k : list E) (off : Z) :
  same_outside (list_inserts (Z.to_nat off) k a) a off (length k).
Proof.
  unfold same_outside. split; [apply length_inserts|]. split.
  - apply list_eq. intros j.
    destruct (decide (j < Z.to_nat off)%nat).
    + rewrite !lookup_take_lt by lia. apply list_lookup_inserts_lt. lia.
    + rewrite !lookup_take_ge by lia. reflexivity.
  - apply list_eq. intros j. rewrite !lookup_drop.
    apply list_lookup_inserts_ge. lia.
Qed.

(** Reading [n] elements at [so] and storing them at [d]: what every
    default copy of the header does. *)
Lemma copy_slice {E : Type} (n : nat) (src dst : list E) (so d : Z) :
  in_range src so n -> in_range dst d n ->
  exists dst',
    (v ← getAs n src so; updAs dst d v) = Ok dst' /\
    slice dst' d n = slice src so n /\
    same_outside dst' dst d n.
Proof.
  intros Hs Hd.
  destruct (getAs_Ok n src so Hs) as (v & Hv & Hl).
  rewrite Hv, bind_Ok, (updAs_Ok dst d v Hd).
  eexists. split; [reflexivity|].
  pose proof (length_vec_to_list v) as Hlen.
  destruct Hd as [Hd0 Hd1]. split.
  - rewrite <- Hl. rewrite <- Hlen at 2. apply slice_inserts; [lia|]. lia.
  - rewrite <- Hlen at 2. apply same_outside_inserts.
Qed.

Lemma c_assert_true (P : Prop) `{Decision P} : P -> c_assert (bool_decide P) = Ok tt.
Proof. intros HP. unfold c_assert. rewrite bool_decide_eq_true_2 by exact HP. reflexivity. Qed.

Lemma c_assert_false (P : Prop) `{Decision P} :
  ~ P -> c_assert (bool_decide P) = AssertionFailed.
Proof. intros HP. unfold c_assert. rewrite bool_decide_eq_false_2 by exact HP. reflexivity. Qed.

Lemma getAs_not_AssertionFailed {E : Type} (n : nat) (a : list E) (off : Z) :
  getAs n a off <> AssertionFailed.
Proof.
  unfold getAs. destruct (_ && _); [|discriminate].
  destruct (read_vec _ _); discriminate.
Qed.

Lemma updAs_not_AssertionFailed {E : Type} {n : nat} (a : list E) (off : Z) (v : vec E n) :
  updAs a off v <> AssertionFailed.
Proof. unfold updAs. destruct (_ && _); discriminate. Qed.

Lemma slice_replicate {E : Type} (n : nat) (e : E) :
  vec_to_list (vreplicate n e) = replicate n e.
Proof. induction n as [|n IH]; simpl; [reflexivity|]. rewrite IH. reflexivity. Qed.

Lemma fill_slice {E : Type} (n : nat) (a : list E) (off : Z) (e : E) :
  in_range a off n ->
  exists a',
    updAs_scalar n a off e = Ok a' /\
    slice a' off n = replicate n e /\
    same_outside a' a off n.
Proof.
  intros Ha. unfold updAs_scalar. rewrite (updAs_Ok a off _ Ha).
  eexists. split; [reflexivity|].
  rewrite slice_replicate.
  pose proof (length_replicate n e) as Hlen.
  destruct Ha as [H0 H1]. split.
  - rewrite <- Hlen at 2. apply slice_inserts; [lia|]. rewrite Hlen. lia.
  - rewrite <- Hlen at 2. apply same_outside_inserts.
Qed.

(** * The defaults of the header *)

Section Defaults.
Context {SP : SpatialPrimitives} {SC : StateContainer}.
Variable dof : nat.

(** The local forms of the identity mapping: [qdot = u] and
    [qdotdot = udot] on the first [dof] entries. *)
Lemma calcLocalQDotFromLocalU_copies (n : RigidBodyNode) (sbs : SBStateDigest)
    (u qdot : list Real) :
  qdotHandling n = QDotIsAlwaysTheSameAsU ->
  in_range u 0 dof -> in_range qdot 0 dof ->
  (exists qdot',
     calcLocalQDotFromLocalU dof n sbs u qdot = Ok qdot' /\
     slice qdot' 0 dof = slice u 0 dof /\ same_outside qdot' qdot 0 dof) /\
  (exists qdotdot',
     calcLocalQDotDotFromLocalUDot dof n sbs u qdot = Ok qdotdot' /\
     slice qdotdot' 0 dof = slice u 0 dof /\ same_outside qdotdot' qdot 0 dof).
Proof.
  intros Hmode Hu Hq.
  unfold calcLocalQDotFromLocalU, calcLocalQDotDotFromLocalUDot.
  rewrite (c_assert_true _ Hmode), !bind_Ok.
  split; apply copy_slice; assumption.
Qed.

(** C1: in [QDotIsAlwaysTheSameAsU] mode the default [calcQDot] returns
    [qdot] with the node's [dof] entries from [qIndex] equal to the node's
    [dof] entries of [u] from [uIndex], element for element, and every
    other entry of [qdot] as it was; the default [calcQDotDot] does the
    same from [udot] to [qdotdot].  The arrays are any arrays that hold the
    node's slices. *)
Theorem calcQDot_copies_u (n : RigidBodyNode) (sbs : SBStateDigest)
    (u qdot udot qdotdot : Vector) :
  qdotHandling n = QDotIsAlwaysTheSameAsU ->
  in_range u (uIndex n) dof -> in_range qdot (qIndex n) dof ->
  in_range udot (uIndex n) dof -> in_range qdotdot (qIndex n) dof ->
  (exists qdot',
     calcQDot dof n sbs u qdot = Ok qdot' /\
     slice qdot' (qIndex n) dof = slice u (uIndex n) dof /\
     same_outside qdot' qdot (qIndex n) dof) /\
  (exists qdotdot',
     calcQDotDot dof n sbs udot qdotdot = Ok qdotdot' /\
     slice qdotdot' (qIndex n) dof = slice udot (uIndex n) dof /\
     same_outside qdotdot' qdotdot (qIndex n) dof).
Proof.
  intros Hmode Hu Hq Hud Hqdd.
  unfold calcQDot, calcQDotDot, fromU, toQ.
  rewrite (c_assert_true _ Hmode), !bind_Ok.
  split; apply copy_slice; assumption.
Qed.

(** C7: in [QDotIsAlwaysTheSameAsU] mode the default [multiplyByN] and
    [multiplyByNInv] return [out] with its first [dof] entries equal to the
    first [dof] entries of [in] and the rest as it was, whatever
    [matrixOnRight], [useEulerAnglesIfPossible] and [q] are. *)
Theorem multiplyByN_copies_in (n : RigidBodyNode) (sbs : SBStateDigest)
    (useEulerAnglesIfPossible matrixOnRight : bool) (q input out : list Real) :
  qdotHandling n = QDotIsAlwaysTheSameAsU ->
  in_range input 0 dof -> in_range out 0 dof ->
  (exists out',
     multiplyByN dof n sbs useEulerAnglesIfPossible q matrixOnRight input out = Ok out' /\
     slice out' 0 dof = slice input 0 dof /\ same_outside out' out 0 dof) /\
  (exists out',
     multiplyByNInv dof n sbs useEulerAnglesIfPossible q matrixOnRight input out = Ok out' /\
     slice out' 0 dof = slice input 0 dof /\ same_outside out' out 0 dof).
Proof.
  intros Hmode Hin Hout.
  unfold multiplyByN, multiplyByNInv.
  rewrite (c_assert_true _ Hmode), !bind_Ok.
  split; apply copy_slice; assumption.
Qed.

(** C10: the default [setMobilizerDefaultPositionValues] returns [q] with
    zero in the node's [dof] entries from [qIndex] and every other entry as
    it was; the default [setMobilizerDefaultVelocityValues] does the same
    on [u] from [uIndex]; the default installers of the Model, Instance,
    Time, Dynamics and Acceleration stages return the variables they were
    given. *)
Theorem default_values_zero_own_slice (n : RigidBodyNode) (s : SBModelVars)
    (q u : Vector) :
  in_range q (qIndex n) dof -> in_range u (uIndex n) dof ->
  (exists q',
     setMobilizerDefaultPositionValues dof n s q = Ok q' /\
     slice q' (qIndex n) dof = replicate dof 0%float /\
     same_outside q' q (qIndex n) dof) /\
  (exists u',
     setMobilizerDefaultVelocityValues dof n s u = Ok u' /\
     slice u' (uIndex n) dof = replicate dof 0%float /\
     same_outside u' u (uIndex n) dof) /\
  (forall tc mv, setMobilizerDefaultModelValues n tc mv = mv) /\
  (forall mv iv, setMobilizerDefaultInstanceValues n mv iv = iv) /\
  (forall mv tv, setMobilizerDefaultTimeValues n mv tv = tv) /\
  (forall mv dv, setMobilizerDefaultDynamicsValues n mv dv = dv) /\
  (forall mv dv, setMobilizerDefaultAccelerationValues n mv dv = dv).
Proof.
  intros Hq Hu.
  split; [apply fill_slice; exact Hq|].
  split; [apply fill_slice; exact Hu|].
  repeat split.
Qed.

(** C6: when the node's quaternion mode is [QuaternionIsNeverUsed] the
    assertion of each of the defaults [getMaxNQ], [getNQInUse], [copyQ],
    [isUsingQuaternion] and [enforceQuaternionConstraints] holds, and
    [getMaxNQ] and [getNQInUse] return [dof]; in any other mode each of the
    five stops at its assertion. *)
Theorem quaternion_defaults_assert (n : RigidBodyNode) :
  (quaternionUse n = QuaternionIsNeverUsed ->
     getMaxNQ dof n = Ok (Z.of_nat dof) /\
     (forall mv, getNQInUse dof n mv = Ok (Z.of_nat dof)) /\
     (forall mv qIn q, copyQ dof n mv qIn q <> AssertionFailed) /\
     (forall sbs, isUsingQuaternion n sbs = Ok (false, None)) /\
     (forall sbs q qErrest,
        enforceQuaternionConstraints n sbs q qErrest = Ok (false, q, qErrest))) /\
  (quaternionUse n <> QuaternionIsNeverUsed ->
     getMaxNQ dof n = AssertionFailed /\
     (forall mv, getNQInUse dof n mv = AssertionFailed) /\
     (forall mv qIn q, copyQ dof n mv qIn q = AssertionFailed) /\
     (forall sbs, isUsingQuaternion n sbs = AssertionFailed) /\
     (forall sbs q qErrest,
        enforceQuaternionConstraints n sbs q qErrest = AssertionFailed)).
Proof.
  split; intros Hmode.
  - unfold getMaxNQ, getNQInUse, copyQ, isUsingQuaternion,
      enforceQuaternionConstraints.
    rewrite (c_assert_true _ Hmode).
    repeat split; intros; try reflexivity.
    rewrite bind_Ok. unfold fromQ, toQ.
    destruct (getAs dof qIn (qIndex n)) as [v| |] eqn:Hget.
    + rewrite bind_Ok. apply updAs_not_AssertionFailed.
    + exfalso. exact (getAs_not_AssertionFailed _ _ _ Hget).
    + discriminate.
  - unfold getMaxNQ, getNQInUse, copyQ, isUsingQuaternion,
      enforceQuaternionConstraints.
    rewrite (c_assert_false _ Hmode).
    repeat split.
Qed.

(** C9: [realizeModel], [realizeInstance], [realizeTime],
    [realizeAcceleration] and [realizeReport] return, and the digest they
    return is the digest they were given: every cache and every state
    variable in it is unchanged.  The node is an argument only; the
    functions return no new node. *)
Theorem empty_stages_change_nothing (n : RigidBodyNode) (sbs : SBStateDigest) :
  realizeModel n sbs = Ok sbs /\
  realizeInstance n sbs = Ok sbs /\
  realizeTime n sbs = Ok sbs /\
  realizeAcceleration n sbs = Ok sbs /\
  realizeReport n sbs = Ok sbs.
Proof. repeat split. Qed.

(** C5: the default [setQToFitTransformImpl] is [setQToFitRotationImpl] on
    [X_FM.R()] followed by [setQToFitTranslationImpl] on [X_FM.p()], the
    second working on the [q] the first leaves; the default
    [setUToFitVelocityImpl] is [setUToFitAngularVelocityImpl] on [V_FM[0]]
    followed by [setUToFitLinearVelocityImpl] on [V_FM[1]]. *)
Theorem fit_defaults_are_compositions (m : Mobilizer dof) (n : RigidBodyNode)
    (sbs : SBStateDigest) (X_FM : Transform) (q : Vector)
    (V_FM : SpatialVec) (u : Vector) :
  setQToFitTransformImpl dof m n sbs X_FM q =
    (setQToFitTranslationImpl m n sbs (X_p X_FM) ∘
     setQToFitRotationImpl m n sbs (X_R X_FM)) q /\
  setUToFitVelocityImpl dof m n sbs q V_FM u =
    (setUToFitLinearVelocityImpl m n sbs q (sv1 V_FM) ∘
     setUToFitAngularVelocityImpl m n sbs q (sv0 V_FM)) u.
Proof. split; reflexivity. Qed.

End Defaults.

(** ** Per-body arrays *)

Lemma getAt_Ok {E : Type} (a : list E) (i : Z) :
  has_body a i -> exists x, getAt a i = Ok x /\ a !! Z.to_nat i = Some x.
Proof.
  intros [H0 H1]. unfold getAt.
  destruct (Z.leb_spec 0 i); [|lia].
  destruct (lookup_lt_is_Some_2 a (Z.to_nat i)) as [x Hx]; [lia|].
  exists x. rewrite Hx. split; reflexivity.
Qed.

Lemma updAt_Ok {E : Type} (a : list E) (i : Z) (x : E) :
  has_body a i -> updAt a i x = Ok (<[Z.to_nat i := x]> a).
Proof.
  intros [H0 H1]. unfold updAt.
  destruct (Z.leb_spec 0 i); [|lia].
  destruct (Z.ltb_spec i (Z.of_nat (length a))); [|lia].
  reflexivity.
Qed.

Lemma getAt_insert_same {E : Type} (a : list E) (i : Z) (x : E) :
  has_body a i -> getAt (<[Z.to_nat i := x]> a) i = Ok x.
Proof.
  intros [H0 H1]. unfold getAt.
  destruct (Z.leb_spec 0 i); [|lia].
  rewrite list_lookup_insert_eq by lia. reflexivity.
Qed.

Lemma has_body_insert {E : Type} (a : list E) (i j : Z) (x : E) :
  has_body a i -> has_body (<[Z.to_nat j := x]> a) i.
Proof. unfold has_body. rewrite length_insert. tauto. Qed.

Lemma in_range_inserts {E : Type} (a k : list E) (off : Z) (n : nat) (j : nat) :
  in_range a off n -> in_range (list_inserts j k a) off n.
Proof. unfold in_range. rewrite length_inserts. tauto. Qed.

Lemma getAs_inserts {E : Type} {n : nat} (a : list E) (off : Z) (v : vec E n) :
  in_range a off n ->
  getAs n (list_inserts (Z.to_nat off) (vec_to_list v) a) off = Ok v.
Proof.
  intros Ha.
  destruct (getAs_Ok n (list_inserts (Z.to_nat off) (vec_to_list v) a) off)
    as (w & Hw & Hl).
  { apply in_range_inserts. exact Ha. }
  rewrite Hw. f_equal. apply vec_to_list_inj2. rewrite Hl.
  pose proof (length_vec_to_list v) as Hlen. destruct Ha as [H0 H1].
  rewrite <- Hlen at 2. apply slice_inserts; [lia|]. lia.
Qed.

(** ** The small-matrix product *)

Lemma Row_mul_Vec_Ok (r : list Vec3) (v : list Real) :
  (0 < length r)%nat -> (0 < length v)%nat ->
  exists s, Row_mul_Vec r v = Ok s.
Proof.
  intros Hr Hv. destruct r as [|r0 r]; simpl in Hr; [lia|].
  destruct v as [|v0 v]; simpl in Hv; [lia|].
  eexists. reflexivity.
Qed.

Lemma Mat_mul_Vec_Ok {n : nat} (H : vec SpatialVec n) (v : vec Real n) :
  (0 < n)%nat -> exists V, Mat_mul_Vec H v = Ok V.
Proof.
  intros Hn. unfold Mat_mul_Vec.
  destruct (Row_mul_Vec_Ok (sv0 <$> vec_to_list H) (vec_to_list v)) as [w Hw].
  { rewrite length_fmap, length_vec_to_list. exact Hn. }
  { rewrite length_vec_to_list. exact Hn. }
  destruct (Row_mul_Vec_Ok (sv1 <$> vec_to_list H) (vec_to_list v)) as [l Hl].
  { rewrite length_fmap, length_vec_to_list. exact Hn. }
  { rewrite length_vec_to_list. exact Hn. }
  rewrite Hw, bind_Ok, Hl, bind_Ok. eexists. reflexivity.
Qed.

(** The scenario of section 8: one column, angular (0,0,1) and linear
    (0,0,0), times u = 2. *)
Lemma Mat_mul_Vec_axis_z {n : nat} (H : vec SpatialVec n) (v : vec Real n) :
  vec_to_list H = [mkSpatialVec (mkVec3 0 0 1) (mkVec3 0 0 0)] ->
  vec_to_list v = [2%float] ->
  Mat_mul_Vec H v = Ok (mkSpatialVec (mkVec3 0 0 2) (mkVec3 0 0 0)).
Proof.
  intros HH Hv. unfold Mat_mul_Vec. rewrite HH, Hv. reflexivity.
Qed.

(** * Kinematics *)

Section Kinematics.
Context {SP : SpatialPrimitives} {SC : StateContainer}.
Variable dof : nat.

(** C2: [calcJointKinematicsVel] returns, and in the cache it returns V_FM
    is the product of H_FM and the node's entries of [u], and V_PB_G the
    product of H and the same entries.  When H_FM is the single column with
    angular part (0,0,1) and linear part (0,0,0) and the node's entry of
    [u] is 2.0, V_FM has angular part (0,0,2.0) and linear part (0,0,0). *)
Theorem calcJointKinematicsVel_is_H_times_u (n : RigidBodyNode)
    (pc : SBPositionCache) (u : Vector) (vc : SBVelocityCache) :
  velocity_slots dof n pc u vc ->
  exists (H_FM H : HType dof) (u_n : vec Real dof) (V_FM V_PB_G : SpatialVec)
         (vc' : SBVelocityCache),
    getH_FM dof n pc = Ok H_FM /\
    getH dof n pc = Ok H /\
    fromU dof n u = Ok u_n /\
    Mat_mul_Vec H_FM u_n = Ok V_FM /\
    Mat_mul_Vec H u_n = Ok V_PB_G /\
    calcJointKinematicsVel dof n pc u vc = Ok vc' /\
    getV_FM n vc' = Ok V_FM /\
    getV_PB_G n vc' = Ok V_PB_G /\
    (vec_to_list H_FM = [mkSpatialVec (mkVec3 0 0 1) (mkVec3 0 0 0)] ->
     vec_to_list u_n = [2%float] ->
     V_FM = mkSpatialVec (mkVec3 0 0 2) (mkVec3 0 0 0)).
Proof.
  intros (Hdof & HrFM & HrH & Hru & HbFM & HbPB).
  destruct (getAs_Ok dof _ _ HrFM) as (H_FM & HgFM & _).
  destruct (getAs_Ok dof _ _ HrH) as (H & HgH & _).
  destruct (getAs_Ok dof _ _ Hru) as (u_n & Hgu & _).
  destruct (Mat_mul_Vec_Ok H_FM u_n Hdof) as (V_FM & HV_FM).
  destruct (Mat_mul_Vec_Ok H u_n Hdof) as (V_PB_G & HV_PB_G).
  exists H_FM, H, u_n, V_FM, V_PB_G.
  eexists. unfold calcJointKinematicsVel, getH_FM, getH, fromU.
  rewrite HgFM, HgH, Hgu, !bind_Ok, HV_FM, bind_Ok.
  unfold updV_FM. rewrite (updAt_Ok _ _ V_FM HbFM), !bind_Ok.
  rewrite HV_PB_G, bind_Ok.
  unfold updV_PB_G. cbn [bodyVelocityInParent mobilizerRelativeVelocity velocityCacheRest].
  rewrite (updAt_Ok _ _ V_PB_G HbPB), !bind_Ok.
  repeat (split; [reflexivity|]).
  unfold getV_FM, getV_PB_G.
  cbn [bodyVelocityInParent mobilizerRelativeVelocity].
  rewrite !getAt_insert_same by assumption.
  repeat (split; [reflexivity|]).
  intros HJ Hu2. rewrite (Mat_mul_Vec_axis_z H_FM u_n HJ Hu2) in HV_FM.
  congruence.
Qed.

(** The second step of [realizePosition]. *)
Lemma realizePosition_transforms_spec (m : Mobilizer dof) (n : RigidBodyNode)
    (sbs : SBStateDigest) (X_GP : Transform) :
  position_slots dof n (getPositionCache sbs) ->
  getX_GP n (getPositionCache sbs) = Ok X_GP ->
  let sbs1 := realizePosition_sincos dof m n sbs in
  let X_F0M0 := calcAcrossJointTransform m n sbs1 (getQ sbs1) in
  let X_FM := if isReversed n then X_inv X_F0M0 else X_F0M0 in
  let X_PB := X_mul (X_mul (getX_PF n) X_FM) (getX_MB n) in
  let X_GB := X_mul X_GP X_PB in
  exists pc3,
    realizePosition_transforms dof m n sbs = Ok (setPositionCache sbs1 pc3) /\
    getX_FM n pc3 = Ok X_FM /\ getX_PB n pc3 = Ok X_PB /\
    getX_GB n pc3 = Ok X_GB /\
    storageForH_FM pc3 = storageForH_FM (getPositionCache sbs) /\
    storageForH pc3 = storageForH (getPositionCache sbs).
Proof.
  intros (HbFM & HbPB & HbGB & HbGP & HrFM & HrH) HgGP.
  unfold getX_GP in HgGP. cbv zeta.
  remember (realizePosition_sincos dof m n sbs) as sbs1 eqn:Hsbs1.
  assert (Hpc1 : bodyJointInParentJointFrame (getPositionCache sbs1)
                 = bodyJointInParentJointFrame (getPositionCache sbs)
               /\ bodyConfigInParent (getPositionCache sbs1)
                 = bodyConfigInParent (getPositionCache sbs)
               /\ bodyConfigInGround (getPositionCache sbs1)
                 = bodyConfigInGround (getPositionCache sbs)
               /\ storageForH_FM (getPositionCache sbs1)
                 = storageForH_FM (getPositionCache sbs)
               /\ storageForH (getPositionCache sbs1)
                 = storageForH (getPositionCache sbs)).
  { rewrite Hsbs1. unfold realizePosition_sincos.
    destruct (calcJointSinCosQNorm m n _ _ _ _ _ _ _ _) as [[[sq' cq'] qErr'] qnorm'].
    repeat split. }
  destruct Hpc1 as (E1 & E2 & E3 & E4 & E5).
  set (X_F0M0 := calcAcrossJointTransform m n sbs1 (getQ sbs1)).
  set (X_FM := if isReversed n then X_inv X_F0M0 else X_F0M0).
  set (X_PB := X_mul (X_mul (getX_PF n) X_FM) (getX_MB n)).
  set (X_GB := X_mul X_GP X_PB).
  assert (Hupd : (if isReversed n
                  then updX_FM n (getPositionCache sbs1) (X_inv X_F0M0)
                  else updX_FM n (getPositionCache sbs1) X_F0M0)
                 = updX_FM n (getPositionCache sbs1) X_FM).
  { unfold X_FM. destruct (isReversed n); reflexivity. }
  unfold realizePosition_transforms. rewrite <- Hsbs1. cbv zeta. fold X_F0M0.
  rewrite Hupd. unfold updX_FM.
  rewrite updAt_Ok by (rewrite ?E1; exact HbFM). rewrite !bind_Ok.
  unfold calcBodyTransforms, getX_FM, getX_GP.
  cbn [bodyJointInParentJointFrame bodyConfigInGround bodyConfigInParent].
  rewrite getAt_insert_same by (rewrite ?E1; exact HbFM). rewrite bind_Ok.
  rewrite E3, HgGP, !bind_Ok. fold X_PB X_GB.
  unfold updX_PB. cbn [bodyJointInParentJointFrame bodyConfigInGround bodyConfigInParent].
  rewrite updAt_Ok by (rewrite ?E2; exact HbPB). rewrite !bind_Ok.
  unfold updX_GB. cbn [bodyJointInParentJointFrame bodyConfigInGround bodyConfigInParent].
  rewrite updAt_Ok by (rewrite ?E3; exact HbGB). rewrite !bind_Ok.
  eexists. split; [reflexivity|].
  unfold getX_PB, getX_GB.
  cbn [bodyJointInParentJointFrame bodyConfigInGround bodyConfigInParent
       storageForH_FM storageForH].
  rewrite !getAt_insert_same by (rewrite ?E1, ?E2, ?E3; assumption).
  rewrite ?E4, ?E5. repeat split.
Qed.

(** The third step of [realizePosition]: the cache handed to the joint
    independent pass holds the Jacobian just computed and the per-body
    entries of the cache the step started from. *)
Lemma realizePosition_jacobians_spec (k : OutOfLine dof) (m : Mobilizer dof)
    (n : RigidBodyNode) (sbs : SBStateDigest) :
  in_range (storageForH_FM (getPositionCache sbs)) (uIndex n) dof ->
  in_range (storageForH (getPositionCache sbs)) (uIndex n) dof ->
  exists pc,
    realizePosition_jacobians dof k m n sbs =
      Ok (setPositionCache sbs (calcJointIndependentKinematicsPos k n pc)) /\
    getH_FM dof n pc =
      Ok (if isReversed n then calcReverseMobilizerH_FM m n sbs
          else calcAcrossJointVelocityJacobian m n sbs) /\
    getX_FM n pc = getX_FM n (getPositionCache sbs) /\
    getX_PB n pc = getX_PB n (getPositionCache sbs) /\
    getX_GB n pc = getX_GB n (getPositionCache sbs).
Proof.
  intros HrFM HrH. unfold realizePosition_jacobians.
  set (HFM := if isReversed n then calcReverseMobilizerH_FM m n sbs
              else calcAcrossJointVelocityJacobian m n sbs).
  assert (Hupd : (if isReversed n
                  then updH_FM dof n (getPositionCache sbs) (calcReverseMobilizerH_FM m n sbs)
                  else updH_FM dof n (getPositionCache sbs)
                         (calcAcrossJointVelocityJacobian m n sbs))
                 = updH_FM dof n (getPositionCache sbs) HFM).
  { unfold HFM. destruct (isReversed n); reflexivity. }
  rewrite Hupd. unfold updH_FM.
  rewrite updAs_Ok by exact HrFM. rewrite !bind_Ok.
  unfold updH. cbn [storageForH].
  rewrite updAs_Ok by exact HrH. rewrite !bind_Ok.
  eexists. split; [reflexivity|].
  unfold getH_FM, getX_FM, getX_PB, getX_GB.
  cbn [storageForH_FM bodyJointInParentJointFrame bodyConfigInGround bodyConfigInParent].
  rewrite getAs_inserts by exact HrFM. repeat split.
Qed.

(** C3: [realizePosition] returns.  In the position cache its second step
    leaves, and in the one it hands to the joint independent pass that
    ends it, the node's X_FM is the inverse of the as-defined across-joint
    transform when the node is reversed and that transform itself
    otherwise, X_PB is (X_PF * X_FM) * X_MB and X_GB is X_GP * X_PB, where
    X_GP is the parent's ground transform in the cache [realizePosition]
    was given. *)
Theorem realizePosition_body_transforms (k : OutOfLine dof) (m : Mobilizer dof)
    (n : RigidBodyNode) (sbs : SBStateDigest) :
  position_slots dof n (getPositionCache sbs) ->
  exists (sbs' : SBStateDigest) (pc : SBPositionCache) (X_GP : Transform),
    getX_GP n (getPositionCache sbs) = Ok X_GP /\
    let sbs1 := realizePosition_sincos dof m n sbs in
    let X_F0M0 := calcAcrossJointTransform m n sbs1 (getQ sbs1) in
    let X_FM := if isReversed n then X_inv X_F0M0 else X_F0M0 in
    let X_PB := X_mul (X_mul (getX_PF n) X_FM) (getX_MB n) in
    let X_GB := X_mul X_GP X_PB in
    realizePosition_transforms dof m n sbs = Ok sbs' /\
    getX_FM n (getPositionCache sbs') = Ok X_FM /\
    getX_PB n (getPositionCache sbs') = Ok X_PB /\
    getX_GB n (getPositionCache sbs') = Ok X_GB /\
    realizePosition dof k m n sbs =
      Ok (setPositionCache sbs' (calcJointIndependentKinematicsPos k n pc)) /\
    getX_FM n pc = Ok X_FM /\
    getX_PB n pc = Ok X_PB /\
    getX_GB n pc = Ok X_GB.
Proof.
  intros Hslots.
  pose proof Hslots as (_ & _ & _ & HbGP & HrFM & HrH).
  destruct (getAt_Ok _ _ HbGP) as (X_GP & HgGP & _).
  destruct (realizePosition_transforms_spec m n sbs X_GP Hslots HgGP)
    as (pc3 & Htr & G1 & G2 & G3 & S1 & S2).
  destruct (realizePosition_jacobians_spec k m n
              (setPositionCache (realizePosition_sincos dof m n sbs) pc3))
    as (pc & Hjac & _ & J1 & J2 & J3).
  { cbn [getPositionCache setPositionCache]. rewrite S1. exact HrFM. }
  { cbn [getPositionCache setPositionCache]. rewrite S2. exact HrH. }
  cbn [getPositionCache setPositionCache] in J1, J2, J3.
  exists (setPositionCache (realizePosition_sincos dof m n sbs) pc3), pc, X_GP.
  split; [exact HgGP|]. cbv zeta.
  split; [exact Htr|].
  cbn [getPositionCache setPositionCache].
  split; [exact G1|]. split; [exact G2|]. split; [exact G3|].
  split; [unfold realizePosition; rewrite Htr, bind_Ok; exact Hjac|].
  rewrite J1, J2, J3. split; [exact G1|]. split; [exact G2|]. exact G3.
Qed.

(** [realizeDynamics] on a node whose entries are allocated. *)
Lemma realizeDynamics_spec (k : OutOfLine dof) (m : Mobilizer dof)
    (n : RigidBodyNode) (sbs : SBStateDigest) :
  dynamics_slots dof n (getU sbs) (getDynamicsCache sbs) ->
  exists dc,
    realizeDynamics dof k m n sbs =
      Ok (setDynamicsCache sbs
            (calcJointIndependentDynamicsVel k n (getPositionCache sbs)
               (getVelocityCache sbs) dc)) /\
    getHDot_FM dof n dc =
      Ok (if isReversed n then calcReverseMobilizerHDot_FM m n sbs
          else calcAcrossJointVelocityJacobianDot m n sbs).
Proof.
  intros (Hdof & HrFM & HrH & Hru & Hb). unfold realizeDynamics.
  set (HDFM := if isReversed n then calcReverseMobilizerHDot_FM m n sbs
               else calcAcrossJointVelocityJacobianDot m n sbs).
  assert (Hupd : (if isReversed n
                  then updHDot_FM dof n (getDynamicsCache sbs)
                         (calcReverseMobilizerHDot_FM m n sbs)
                  else updHDot_FM dof n (getDynamicsCache sbs)
                         (calcAcrossJointVelocityJacobianDot m n sbs))
                 = updHDot_FM dof n (getDynamicsCache sbs) HDFM).
  { unfold HDFM. destruct (isReversed n); reflexivity. }
  rewrite Hupd. unfold updHDot_FM.
  rewrite updAs_Ok by exact HrFM. rewrite !bind_Ok.
  unfold updHDot. cbn [storageForHDot].
  rewrite updAs_Ok by exact HrH. rewrite !bind_Ok.
  unfold calcJointDynamics, getHDot, fromU. cbn [storageForHDot].
  rewrite getAs_inserts by exact HrH. rewrite bind_Ok.
  destruct (getAs_Ok dof _ _ Hru) as (u_n & Hgu & _).
  rewrite Hgu, bind_Ok.
  match goal with
  | |- context [Mat_mul_Vec ?H u_n] =>
      destruct (Mat_mul_Vec_Ok H u_n Hdof) as (VD & HVD); rewrite HVD, bind_Ok
  end.
  unfold updVD_PB_G. cbn [bodyVelocityInParentDerivRemainder].
  rewrite updAt_Ok by exact Hb. rewrite !bind_Ok.
  eexists. split; [reflexivity|].
  unfold getHDot_FM. cbn [storageForHDot_FM].
  apply getAs_inserts. exact HrFM.
Qed.

(** C4: for a reversed node whose entries are allocated, the H_FM in the
    position cache that [realizePosition] hands to the joint independent
    pass is the result of [calcReverseMobilizerH_FM], called with the digest
    the second step leaves, and the HDot_FM in the dynamics cache that
    [realizeDynamics] hands to its joint independent pass is the result of
    [calcReverseMobilizerHDot_FM]; neither result changes when the class's
    [calcAcrossJointVelocityJacobian] and
    [calcAcrossJointVelocityJacobianDot] are replaced by other methods. *)
Theorem reversed_node_uses_adapters (k : OutOfLine dof) (m : Mobilizer dof)
    (n : RigidBodyNode) (sbs : SBStateDigest) :
  isReversed n = true ->
  position_slots dof n (getPositionCache sbs) ->
  dynamics_slots dof n (getU sbs) (getDynamicsCache sbs) ->
  (exists (sbs' : SBStateDigest) (pc : SBPositionCache),
     realizePosition_transforms dof m n sbs = Ok sbs' /\
     realizePosition dof k m n sbs =
       Ok (setPositionCache sbs' (calcJointIndependentKinematicsPos k n pc)) /\
     getH_FM dof n pc = Ok (calcReverseMobilizerH_FM m n sbs')) /\
  (exists dc : SBDynamicsCache,
     realizeDynamics dof k m n sbs =
       Ok (setDynamicsCache sbs
             (calcJointIndependentDynamicsVel k n (getPositionCache sbs)
                (getVelocityCache sbs) dc)) /\
     getHDot_FM dof n dc = Ok (calcReverseMobilizerHDot_FM m n sbs)) /\
  (forall J JDot : RigidBodyNode -> SBStateDigest -> HType dof,
     realizePosition dof k (with_as_defined dof m J JDot) n sbs =
       realizePosition dof k m n sbs /\
     realizeDynamics dof k (with_as_defined dof m J JDot) n sbs =
       realizeDynamics dof k m n sbs).
Proof.
  intros Hrev Hslots Hdyn.
  pose proof Hslots as (_ & _ & _ & HbGP & HrFM & HrH).
  destruct (getAt_Ok _ _ HbGP) as (X_GP & HgGP & _).
  destruct (realizePosition_transforms_spec m n sbs X_GP Hslots HgGP)
    as (pc3 & Htr & _ & _ & _ & S1 & S2).
  destruct (realizePosition_jacobians_spec k m n
              (setPositionCache (realizePosition_sincos dof m n sbs) pc3))
    as (pc & Hjac & HH & _).
  { cbn [getPositionCache setPositionCache]. rewrite S1. exact HrFM. }
  { cbn [getPositionCache setPositionCache]. rewrite S2. exact HrH. }
  destruct (realizeDynamics_spec k m n sbs Hdyn) as (dc & Hrd & HHD).
  rewrite Hrev in HH, HHD.
  split; [|split].
  - eexists. exists pc. split; [exact Htr|].
    split; [unfold realizePosition; rewrite Htr, bind_Ok; exact Hjac | exact HH].
  - exists dc. split; [exact Hrd | exact HHD].
  - intros J JDot.
    unfold realizePosition, realizePosition_transforms, realizePosition_jacobians,
      realizePosition_sincos, realizeDynamics.
    rewrite Hrev. split; reflexivity.
Qed.

End Kinematics.

(** * Slot counters *)

Lemma to_int_inv (z r : Z) : to_int z = Ok r -> r = z.
Proof. unfold to_int. destruct (is_int z); [|discriminate]. congruence. Qed.

Lemma to_int_Ok (z : Z) : is_int z = true -> to_int z = Ok z.
Proof. intros H. unfold to_int. rewrite H. reflexivity. Qed.

Lemma bind_Ok_inv {A B : Type} (x : outcome A) (f : A -> outcome B) (b : B) :
  x ≫= f = Ok b -> exists a, x = Ok a /\ f a = Ok b.
Proof. destruct x as [a| |]; [|discriminate..]. intros H. exists a. split; [reflexivity | exact H]. Qed.

Lemma dense_from_bounds (start stop : Z) (slices : list (Z * Z)) :
  dense_from start slices stop ->
  Forall (fun s => 0 <= s.2) slices ->
  start <= stop /\
  forall (i : nat) (a : Z * Z), slices !! i = Some a ->
    start <= a.1 /\ a.1 + a.2 <= stop.
Proof.
  revert start. induction slices as [|[ix size] rest IH]; intros start Hd Hpos.
  - simpl in Hd. subst. split; [lia|]. intros i a Hi. discriminate.
  - destruct Hd as [-> Hd]. inversion Hpos as [|? ? Hsz Hrest]; subst.
    simpl in Hsz. destruct (IH _ Hd Hrest) as [Hle Hall].
    split; [lia|]. intros [|i] a Hi; simpl in Hi.
    + injection Hi as <-. simpl. lia.
    + destruct (Hall i a Hi). lia.
Qed.

Lemma dense_from_disjoint (start stop : Z) (slices : list (Z * Z)) :
  dense_from start slices stop ->
  Forall (fun s => 0 <= s.2) slices ->
  disjoint_slices slices.
Proof.
  revert start. induction slices as [|[ix size] rest IH]; intros start Hd Hpos.
  - intros i j a b _ Hi. discriminate.
  - destruct Hd as [-> Hd]. inversion Hpos as [|? ? Hsz Hrest]; subst.
    intros [|i] [|j] a b Hij Hi Hj; simpl in Hi, Hj; try lia.
    + injection Hi as <-. simpl.
      destruct (dense_from_bounds _ _ _ Hd Hrest) as [_ Hall].
      destruct (Hall j b Hj). lia.
    + apply (IH _ Hd Hrest i j a b); [lia | assumption..].
Qed.

Section SlotCounters.
Context {SP : SpatialPrimitives} {SC : StateContainer}.

Lemma updateSlots_inv (dof : nat) (m : Mobilizer dof) (n : RigidBodyNode)
    (u usq q : Z) (next : Z * Z * Z) :
  updateSlots dof m n u usq q = Ok next ->
  exists maxNQ,
    virtual_getMaxNQ dof m n = Ok maxNQ /\
    next = (u + Z.of_nat dof, usq + Z.of_nat dof * Z.of_nat dof, q + maxNQ).
Proof.
  unfold updateSlots, int_add, int_mul, getDOF. intros H.
  apply bind_Ok_inv in H as (u' & Hu & H). apply to_int_inv in Hu.
  apply bind_Ok_inv in H as (dd & Hdd & H). apply to_int_inv in Hdd.
  apply bind_Ok_inv in H as (usq' & Husq & H). apply to_int_inv in Husq.
  apply bind_Ok_inv in H as (maxNQ & Hmax & H).
  apply bind_Ok_inv in H as (q' & Hq & H). apply to_int_inv in Hq.
  exists maxNQ. split; [exact Hmax|]. injection H as <-. subst. reflexivity.
Qed.

Lemma createNodes_dense (rs : list NodeRequest) :
  forall (u usq q : Z) (nds : list Node) (u' usq' q' : Z),
  createNodes rs u usq q = Ok (nds, (u', usq', q')) ->
  exists sizes : list Z,
    Forall2 (fun nd s => node_maxNQ nd = Ok s) nds sizes /\
    dense_from u (u_slice <$> nds) u' /\
    dense_from usq (uSq_slice <$> nds) usq' /\
    dense_from q (zip_with q_slice nds sizes) q'.
Proof.
  induction rs as [|r rs IH]; intros u usq q nds u' usq' q' H.
  - simpl in H. injection H as <- <- <- <-. exists []. simpl. auto.
  - simpl in H.
    apply bind_Ok_inv in H as ([nd [[u1 usq1] q1]] & Hnd & H).
    apply bind_Ok_inv in H as ([nds' [[u2 usq2] q2]] & Hrest & H).
    injection H as <- <- <- <-.
    unfold createNode in Hnd.
    apply bind_Ok_inv in Hnd as (next & Hupd & Hnd).
    apply updateSlots_inv in Hupd as (maxNQ & Hmax & ->).
    inversion Hnd; subst; clear Hnd.
    destruct (IH _ _ _ _ _ _ _ Hrest) as (sizes & Hsz & Du & Dusq & Dq).
    exists (maxNQ :: sizes). split; [constructor; [exact Hmax | exact Hsz]|].
    simpl. repeat split; assumption.
Qed.

(** C8: [updateSlots] returns the u counter advanced by [dof], the
    u-squared counter by [dof*dof] and the q counter by what [getMaxNQ()]
    returns, whenever that call returns and the sums are [int]s; the
    constructor records the counters it is given as [uIndex], [uSqIndex]
    and [qIndex]; and in a list of nodes built one after the other the u,
    u-squared and q slices lie end to end from the initial counters to the
    final ones, the u and u-squared slices never reach into a later one,
    and neither do the q slices when no [getMaxNQ()] is negative. *)
Theorem slots_are_dense (dof : nat) (m : Mobilizer dof) (n : RigidBodyNode)
    (u0 usq0 q0 maxNQ : Z)
    (rs : list NodeRequest) (u usq q : Z) (nds : list Node) (u' usq' q' : Z) :
  virtual_getMaxNQ dof m n = Ok maxNQ ->
  is_int (u0 + Z.of_nat dof) = true ->
  is_int (Z.of_nat dof * Z.of_nat dof) = true ->
  is_int (usq0 + Z.of_nat dof * Z.of_nat dof) = true ->
  is_int (q0 + maxNQ) = true ->
  createNodes rs u usq q = Ok (nds, (u', usq', q')) ->
  updateSlots dof m n u0 usq0 q0 =
    Ok (u0 + Z.of_nat dof, usq0 + Z.of_nat dof * Z.of_nat dof, q0 + maxNQ) /\
  (forall mProps_B X_PF' X_BM' qh qu rev,
     let n' := RigidBodyNodeSpec_ctor mProps_B X_PF' X_BM' u0 usq0 q0 qh qu rev in
     uIndex n' = u0 /\ uSqIndex n' = usq0 /\ qIndex n' = q0) /\
  exists sizes : list Z,
    Forall2 (fun nd s => node_maxNQ nd = Ok s) nds sizes /\
    dense_from u (u_slice <$> nds) u' /\
    dense_from usq (uSq_slice <$> nds) usq' /\
    dense_from q (zip_with q_slice nds sizes) q' /\
    disjoint_slices (u_slice <$> nds) /\
    disjoint_slices (uSq_slice <$> nds) /\
    (Forall (fun s => 0 <= s) sizes ->
     disjoint_slices (zip_with q_slice nds sizes)).
Proof.
  intros Hmax Iu Idd Iusq Iq Hbuild.
  split; [|split].
  - unfold updateSlots, int_add, int_mul, getDOF.
    rewrite (to_int_Ok _ Iu), bind_Ok, (to_int_Ok _ Idd), bind_Ok.
    rewrite (to_int_Ok _ Iusq), bind_Ok, Hmax, bind_Ok.
    rewrite (to_int_Ok _ Iq), bind_Ok. reflexivity.
  - intros. repeat split.
  - destruct (createNodes_dense rs _ _ _ _ _ _ _ Hbuild)
      as (sizes & Hsz & Du & Dusq & Dq).
    exists sizes. repeat (split; [assumption|]).
    split; [|split].
    + apply (dense_from_disjoint _ _ _ Du).
      apply Forall_fmap, Forall_true. intros nd. simpl. lia.
    + apply (dense_from_disjoint _ _ _ Dusq).
      apply Forall_fmap, Forall_true. intros nd. simpl. nia.
    + intros Hpos. apply (dense_from_disjoint _ _ _ Dq).
      clear -Hsz Hpos. induction Hsz as [|nd s nds sizes _ _ IH]; simpl.
      * constructor.
      * inversion Hpos; subst. constructor; [simpl; assumption | apply IH; assumption].
Qed.

End SlotCounters.

(** * The theorems on the example system *)

Section Witnesses.
Import Example.
#[local] Existing Instance Example.refPrimitives.
#[local] Existing Instance Example.emptyContainer.

Ltac slots := repeat split; cbn; lia.

Lemma calcQDot_copies_u_witness :
  (exists qdot',
     calcQDot 1 n1 digest0 [7; 2]%float [0; 0; 0]%float = Ok qdot' /\
     slice qdot' 2 1 = [2%float] /\
     same_outside qdot' [0; 0; 0]%float 2 1) /\
  (exists qdotdot',
     calcQDotDot 1 n1 digest0 [nan; -0]%float [1; 1; 1; 1]%float = Ok qdotdot' /\
     slice qdotdot' 2 1 = [(-0)%float] /\
     same_outside qdotdot' [1; 1; 1; 1]%float 2 1).
Proof.
  apply (calcQDot_copies_u 1 n1 digest0 [7; 2]%float [0; 0; 0]%float
           [nan; -0]%float [1; 1; 1; 1]%float); [reflexivity | slots ..].
Defined.

Lemma multiplyByN_copies_in_witness :
  (exists out',
     multiplyByN 1 n1 digest0 true [] true [4; 5]%float [0; 0; 0]%float = Ok out' /\
     slice out' 0 1 = [4%float] /\ same_outside out' [0; 0; 0]%float 0 1) /\
  (exists out',
     multiplyByNInv 1 n1 digest0 true [] true [4; 5]%float [0; 0; 0]%float = Ok out' /\
     slice out' 0 1 = [4%float] /\ same_outside out' [0; 0; 0]%float 0 1).
Proof.
  apply (multiplyByN_copies_in 1 n1 digest0 true true [] [4; 5]%float
           [0; 0; 0]%float); [reflexivity | slots ..].
Defined.

Lemma default_values_zero_own_slice_witness :
  (exists q',
     setMobilizerDefaultPositionValues 1 n1 tt [5; 6; 7]%float = Ok q' /\
     slice q' 2 1 = [0%float] /\ same_outside q' [5; 6; 7]%float 2 1) /\
  (exists u',
     setMobilizerDefaultVelocityValues 1 n1 tt [7; 2]%float = Ok u' /\
     slice u' 1 1 = [0%float] /\ same_outside u' [7; 2]%float 1 1).
Proof.
  destruct (default_values_zero_own_slice 1 n1 tt [5; 6; 7]%float [7; 2]%float)
    as (Hq & Hu & _); [slots .. |].
  split; [exact Hq | exact Hu].
Defined.

Lemma quaternion_defaults_assert_witness :
  (getMaxNQ 1 n1 = Ok 1 /\ getNQInUse 1 n1 tt = Ok 1) /\
  (getMaxNQ 3 n1q = AssertionFailed /\
   copyQ 3 n1q tt [0; 0; 0]%float [0; 0; 0]%float = AssertionFailed).
Proof.
  split.
  - destruct (proj1 (quaternion_defaults_assert 1 n1)) as (H1 & H2 & _);
      [reflexivity|].
    split; [exact H1 | exact (H2 tt)].
  - destruct (proj2 (quaternion_defaults_assert 3 n1q)) as (H1 & _ & H3 & _);
      [discriminate|].
    split; [exact H1 | exact (H3 tt _ _)].
Defined.

Lemma calcJointKinematicsVel_is_H_times_u_witness :
  exists vc',
    calcJointKinematicsVel 1 n1 pc0 [7; 2]%float vc0 = Ok vc' /\
    getV_FM n1 vc' = Ok (mkSpatialVec (mkVec3 0 0 2) (mkVec3 0 0 0)).
Proof.
  destruct (calcJointKinematicsVel_is_H_times_u 1 n1 pc0 [7; 2]%float vc0)
    as (H_FM & H & u_n & V_FM & V_PB_G & vc' & E1 & _ & E3 & _ & _ & E6 & E7 & _ & E9);
    [slots|].
  exists vc'. split; [exact E6|]. rewrite E7. f_equal. apply E9.
  - vm_compute in E1. injection E1 as <-. reflexivity.
  - vm_compute in E3. injection E3 as <-. reflexivity.
Defined.

Lemma realizePosition_body_transforms_witness :
  exists (sbs' : SBStateDigest) (pc : SBPositionCache),
    realizePosition 1 (refOutOfLine 1) Slider n1r digest0 =
      Ok (setPositionCache sbs' pc) /\
    getX_FM n1r pc = Ok (X_inv (translation (mkVec3 0 0 3))) /\
    getX_PB n1r pc =
      Ok (X_mul (X_mul (translation (mkVec3 1 0 0)) (X_inv (translation (mkVec3 0 0 3))))
                (X_inv (translation (mkVec3 0 2 0)))) /\
    getX_GB n1r pc =
      Ok (X_mul (translation (mkVec3 0 0 10))
            (X_mul (X_mul (translation (mkVec3 1 0 0)) (X_inv (translation (mkVec3 0 0 3))))
                   (X_inv (translation (mkVec3 0 2 0))))).
Proof.
  destruct (realizePosition_body_transforms 1 (refOutOfLine 1) Slider n1r digest0)
    as (sbs' & pc & X_GP & HGP & _ & _ & _ & _ & Hrun & HFM & HPB & HGB);
    [slots|].
  vm_compute in HGP. injection HGP as <-.
  exists sbs', pc. split; [exact Hrun|].
  split; [exact HFM|]. split; [exact HPB | exact HGB].
Defined.

Lemma reversed_node_uses_adapters_witness :
  (exists (sbs' : SBStateDigest) (pc : SBPositionCache),
     realizePosition 1 (refOutOfLine 1) Slider n1r digest0 =
       Ok (setPositionCache sbs' pc) /\
     getH_FM 1 n1r pc = Ok [# mkSpatialVec zero3 (mkVec3 0 0 (-1))]) /\
  (exists dc : SBDynamicsCache,
     realizeDynamics 1 (refOutOfLine 1) Slider n1r digest0 =
       Ok (setDynamicsCache digest0 dc) /\
     getHDot_FM 1 n1r dc = Ok [# mkSpatialVec zero3 zero3]).
Proof.
  destruct (reversed_node_uses_adapters 1 (refOutOfLine 1) Slider n1r digest0)
    as ((sbs' & pc & _ & Hrun & HH) & (dc & Hdyn & HHD) & _);
    [reflexivity | slots | slots |].
  split.
  - exists sbs', pc. split; [exact Hrun | exact HH].
  - exists dc. split; [exact Hdyn | exact HHD].
Defined.

Lemma slots_are_dense_witness :
  updateSlots 3 FourQ n1q 1 1 2 = Ok (4, 10, 6) /\
  dense_from 0 (u_slice <$> three_nodes) 5 /\
  dense_from 0 (uSq_slice <$> three_nodes) 11 /\
  disjoint_slices (u_slice <$> three_nodes) /\
  disjoint_slices (uSq_slice <$> three_nodes).
Proof.
  destruct (slots_are_dense 3 FourQ n1q 1 1 2 4 three_requests 0 0 0
              three_nodes 5 11 6)
    as (Hupd & _ & sizes & _ & Du & Dusq & _ & Ju & Jusq & _);
    [reflexivity ..|].
  split; [exact Hupd|]. split; [exact Du|]. split; [exact Dusq|].
  split; [exact Ju | exact Jusq].
Defined.

(** ** Runs *)

Example calcQDot_run :
  calcQDot 1 n1 digest0 [7; 2]%float [0; 0; 0]%float = Ok [0; 0; 2]%float.
Proof. reflexivity. Qed.

Example calcQDot_wrong_mode :
  calcQDot 1 (mkRigidBodyNode tt (translation zero3) (translation zero3)
                QDotMayDifferFromU QuaternionIsNeverUsed false 1 0 1 1 2)
    digest0 [7; 2]%float [0; 0; 0]%float = AssertionFailed.
Proof. reflexivity. Qed.

Example calcQDot_short_array :
  calcQDot 1 n1 digest0 [7; 2]%float [0; 0]%float = Undefined.
Proof. reflexivity. Qed.

Example three_nodes_slots :
  (fun nd => (u_slice nd, uSq_slice nd, qIndex (node_data nd), node_maxNQ nd))
    <$> three_nodes =
  [((0, 1), (0, 1), 0, Ok 1);
   ((1, 3), (1, 9), 1, Ok 4);
   ((4, 1), (10, 1), 5, Ok 1)] /\
  createNodes three_requests 0 0 0 = Ok (three_nodes, (5, 11, 6)).
Proof. split; reflexivity. Qed.

Example quaternion_node_needs_override :
  createNodes [request 3 Cartesian QuaternionMayBeUsed] 0 0 0 = AssertionFailed.
Proof. reflexivity. Qed.

Example counter_at_INT_MAX :
  createNodes [request 1 Slider QuaternionIsNeverUsed] INT_MAX 0 0 = Undefined.
Proof. reflexivity. Qed.

Example setQToFitTransformImpl_run :
  setQToFitTransformImpl 3 Cartesian n1 digest0 (translation (mkVec3 1 2 3))
    [0; 0; 0; 0; 0; 0]%float = [0; 0; 1; 2; 3; 0]%float.
Proof. reflexivity. Qed.

Example forward_and_reversed_slider :
  (sbs' ← realizePosition 1 (refOutOfLine 1) Slider n1 digest0;
   getH_FM 1 n1 (getPositionCache sbs')) = Ok [# mkSpatialVec zero3 (mkVec3 0 0 1)] /\
  (sbs' ← realizePosition 1 (refOutOfLine 1) Slider n1r digest0;
   getH_FM 1 n1r (getPositionCache sbs')) = Ok [# mkSpatialVec zero3 (mkVec3 0 0 (-1))].
Proof. split; reflexivity. Qed.

End Witnesses.

(** * More on the array views *)

Lemma getAs_inv {E : Type} (n : nat) (a : list E) (off : Z) (v : vec E n) :
  getAs n a off = Ok v -> in_range a off n /\ vec_to_list v = slice a off n.
Proof.
  intros H. destruct (decide (in_range a off n)) as [Hr|Hr].
  - split; [exact Hr|]. destruct (getAs_Ok n a off Hr) as (w & Hw & Hl).
    rewrite Hw in H. injection H as <-. exact Hl.
  - rewrite (getAs_Undefined n a off Hr) in H. discriminate.
Qed.

Lemma updAs_inv {E : Type} {n : nat} (a a' : list E) (off : Z) (v : vec E n) :
  updAs a off v = Ok a' ->
  in_range a off n /\ a' = list_inserts (Z.to_nat off) (vec_to_list v) a.
Proof.
  intros H. destruct (decide (in_range a off n)) as [Hr|Hr].
  - split; [exact Hr|]. rewrite (updAs_Ok a off v Hr) in H. congruence.
  - rewrite (updAs_Undefined a off v Hr) in H. discriminate.
Qed.

Lemma getAs_ext {E : Type} (n : nat) (a b : list E) (off : Z) :
  length a = length b -> slice a off n = slice b off n ->
  getAs n a off = getAs n b off.
Proof.
  intros Hlen Hsl. destruct (decide (in_range a off n)) as [Hr|Hr].
  - assert (Hrb : in_range b off n) by (unfold in_range in *; rewrite <- Hlen; exact Hr).
    destruct (getAs_Ok n a off Hr) as (v & Hv & Hlv).
    destruct (getAs_Ok n b off Hrb) as (w & Hw & Hlw).
    rewrite Hv, Hw. f_equal. apply vec_to_list_inj2. congruence.
  - assert (Hrb : ~ in_range b off n) by (unfold in_range in *; rewrite <- Hlen; exact Hr).
    rewrite (getAs_Undefined n a off Hr), (getAs_Undefined n b off Hrb). reflexivity.
Qed.

Lemma slice_inserts_disjoint {E : Type} (a k : list E) (i : nat) (off : Z) (n : nat) :
  0 <= off ->
  (i + length k <= Z.to_nat off)%nat \/ (Z.to_nat off + n <= i)%nat ->
  slice (list_inserts i k a) off n = slice a off n.
Proof.
  intros H0 Hd. unfold slice. apply list_eq. intros j.
  destruct (decide (j < n)%nat) as [Hj|Hj].
  - rewrite !lookup_take_lt by lia. rewrite !lookup_drop.
    destruct Hd as [Hd|Hd].
    + apply list_lookup_inserts_ge. lia.
    + apply list_lookup_inserts_lt. lia.
  - rewrite !lookup_take_ge by lia. reflexivity.
Qed.

Lemma inserts_own_slice {E : Type} (a : list E) (off : Z) (n : nat) :
  in_range a off n -> list_inserts (Z.to_nat off) (slice a off n) a = a.
Proof.
  intros [H0 H1]. apply list_eq. intros j.
  assert (Hlen : length (slice a off n) = n).
  { unfold slice. rewrite length_take, length_drop. lia. }
  destruct (decide (j < Z.to_nat off)%nat) as [Hlt|Hge].
  - apply list_lookup_inserts_lt. exact Hlt.
  - destruct (decide (j < Z.to_nat off + n)%nat) as [Hin|Hout].
    + rewrite list_lookup_inserts by lia.
      unfold slice. rewrite lookup_take_lt by lia. rewrite lookup_drop.
      f_equal. lia.
    + apply list_lookup_inserts_ge. lia.
Qed.

Lemma getAs_updAs_same {E : Type} {n : nat} (a a' : list E) (off : Z) (v : vec E n) :
  updAs a off v = Ok a' -> getAs n a' off = Ok v /\ length a' = length a.
Proof.
  intros H. apply updAs_inv in H as [Hr ->].
  split; [apply getAs_inserts; exact Hr | apply length_inserts].
Qed.

Lemma updAs_getAs_same {E : Type} {n : nat} (a : list E) (off : Z) (v : vec E n) :
  getAs n a off = Ok v -> updAs a off v = Ok a.
Proof.
  intros H. apply getAs_inv in H as [Hr Hl].
  rewrite (updAs_Ok a off v Hr), Hl, (inserts_own_slice a off n Hr). reflexivity.
Qed.

Lemma getAs_updAs_disjoint {E : Type} {n1 : nat} (n2 : nat) (a a' : list E)
    (off1 off2 : Z) (v : vec E n1) :
  off1 + Z.of_nat n1 <= off2 \/ off2 + Z.of_nat n2 <= off1 ->
  updAs a off1 v = Ok a' ->
  getAs n2 a' off2 = getAs n2 a off2.
Proof.
  intros Hd H. apply updAs_inv in H as [[H0 H1] ->].
  destruct (decide (0 <= off2)) as [Hpos|Hneg].
  - apply getAs_ext; [apply length_inserts|].
    apply slice_inserts_disjoint; [exact Hpos|].
    rewrite length_vec_to_list. lia.
  - rewrite !getAs_Undefined; [reflexivity | unfold in_range; lia ..].
Qed.

Lemma same_outside_inserts_vec {E : Type} {n : nat} (a : list E) (off : Z)
    (v : vec E n) :
  same_outside (list_inserts (Z.to_nat off) (vec_to_list v) a) a off n.
Proof.
  pose proof (same_outside_inserts a (vec_to_list v) off) as H.
  rewrite length_vec_to_list in H. exact H.
Qed.

Lemma getAt_inv {E : Type} (a : list E) (i : Z) (x : E) :
  getAt a i = Ok x -> has_body a i /\ a !! Z.to_nat i = Some x.
Proof.
  unfold getAt, has_body. destruct (Z.leb_spec 0 i); [|discriminate].
  destruct (a !! Z.to_nat i) as [y|] eqn:Hy; [|discriminate].
  intros [= ->]. apply lookup_lt_Some in Hy. split; [lia | reflexivity].
Qed.

Lemma getAt_Undefined {E : Type} (a : list E) (i : Z) :
  ~ has_body a i -> getAt a i = Undefined.
Proof.
  unfold getAt, has_body. intros H. destruct (Z.leb_spec 0 i); [|reflexivity].
  rewrite lookup_ge_None_2 by lia. reflexivity.
Qed.

Lemma updAt_Undefined {E : Type} (a : list E) (i : Z) (x : E) :
  ~ has_body a i -> updAt a i x = Undefined.
Proof.
  unfold updAt, has_body. intros H. destruct (Z.leb_spec 0 i); [|reflexivity].
  destruct (Z.ltb_spec i (Z.of_nat (length a))); [lia | reflexivity].
Qed.

Lemma getAt_insert_other {E : Type} (a : list E) (i j : Z) (x : E) :
  0 <= i -> i <> j -> getAt (<[Z.to_nat i := x]> a) j = getAt a j.
Proof.
  intros Hi Hne. unfold getAt. destruct (Z.leb_spec 0 j); [|reflexivity].
  rewrite list_lookup_insert_ne by lia. reflexivity.
Qed.

(** * The accessors *)

Section AccessorFacts.
Context {SP : SpatialPrimitives} {SC : StateContainer}.

(** X1: what [toQ] stores, [fromQ] reads back, and storing what [fromQ]
    read changes nothing; the same for [toU] and [fromU]. *)
Theorem to_from_round_trip (dof : nat) (n : RigidBodyNode) (q q' u u' : list Real)
    (v w : vec Real dof) :
  toQ dof n q v = Ok q' ->
  toU dof n u w = Ok u' ->
  fromQ dof n q' = Ok v /\ length q' = length q /\ toQ dof n q' v = Ok q' /\
  fromU dof n u' = Ok w /\ length u' = length u /\ toU dof n u' w = Ok u'.
Proof.
  unfold toQ, toU, fromQ, fromU. intros Hq Hu.
  destruct (getAs_updAs_same _ _ _ _ Hq) as [Gq Lq].
  destruct (getAs_updAs_same _ _ _ _ Hu) as [Gu Lu].
  repeat split; try assumption; apply updAs_getAs_same; assumption.
Qed.

(** X2: a node's write of its q entries (or u entries) does not change
    what a node with a disjoint slice reads, whatever the two numbers of
    mobilities are. *)
Theorem disjoint_nodes_do_not_interfere (dof1 dof2 : nat) (n1 n2 : RigidBodyNode)
    (q q' u u' : list Real) (v w : vec Real dof1) :
  qIndex n1 + Z.of_nat dof1 <= qIndex n2 \/ qIndex n2 + Z.of_nat dof2 <= qIndex n1 ->
  uIndex n1 + Z.of_nat dof1 <= uIndex n2 \/ uIndex n2 + Z.of_nat dof2 <= uIndex n1 ->
  toQ dof1 n1 q v = Ok q' ->
  toU dof1 n1 u w = Ok u' ->
  fromQ dof2 n2 q' = fromQ dof2 n2 q /\ fromU dof2 n2 u' = fromU dof2 n2 u.
Proof.
  unfold toQ, toU, fromQ, fromU. intros Dq Du Hq Hu.
  split; eapply getAs_updAs_disjoint; eassumption.
Qed.

(** X3: for one mobility the scalar routines are the [Vec<1>] routines:
    they read and write the same entry and are undefined on the same
    arrays. *)
Theorem scalar_routines_agree (n : RigidBodyNode) (a : list Real) (x : Real) :
  fromQ 1 n a = (y ← from1Q n a; Ok [# y]) /\
  toQ 1 n a [# x] = to1Q n a x /\
  fromU 1 n a = (y ← from1U n a; Ok [# y]) /\
  toU 1 n a [# x] = to1U n a x /\
  fromUSq 1 n a = (y ← from1USq n a; Ok [# y]) /\
  toUSq 1 n a [# x] = to1USq n a x.
Proof.
  assert (Hget : forall off : Z, getAs 1 a off = (y ← getAt a off; Ok [# y])).
  { intros off. destruct (decide (has_body a off)) as [Hb|Hb].
    - destruct (getAt_Ok a off Hb) as (y & Hy & Hl). rewrite Hy, bind_Ok.
      destruct (getAs_Ok 1 a off) as (v & Hv & Hs).
      { unfold in_range, has_body in *. lia. }
      rewrite Hv. f_equal. apply vec_to_list_inj2. rewrite Hs. unfold slice.
      destruct Hb as [Hb0 Hb1].
      rewrite (take_S_r _ 0 y) by (rewrite lookup_drop, Nat.add_0_r; exact Hl).
      reflexivity.
    - rewrite (getAt_Undefined a off Hb).
      apply getAs_Undefined. unfold in_range, has_body in *. lia. }
  assert (Hupd : forall off : Z, updAs a off [# x] = updAt a off x).
  { intros off. destruct (decide (has_body a off)) as [Hb|Hb].
    - rewrite (updAt_Ok a off x Hb), updAs_Ok; [reflexivity|].
      unfold in_range, has_body in *. lia.
    - rewrite (updAt_Undefined a off x Hb).
      apply updAs_Undefined. unfold in_range, has_body in *. lia. }
  unfold fromQ, toQ, fromU, toU, fromUSq, toUSq, from1Q, to1Q, from1U, to1U,
    from1USq, to1USq.
  repeat split; auto.
Qed.

End AccessorFacts.

Section AccessorFacts2.
Context {SP : SpatialPrimitives} {SC : StateContainer}.

Lemma Vec3_of_vec_of_Vec3 (p : Vec3) : Vec3_of_vec (vec_of_Vec3 p) = p.
Proof. destruct p. reflexivity. Qed.

(** X4: with the quaternion in the first four coordinates of the node and
    a [Vec3] at an offset of four or more, each is read back as written
    and writing one leaves the other as it was; a [Vec3] written into the
    node's u entries is read back as well. *)
Theorem quaternion_and_Vec3_slots (n : RigidBodyNode) (q q1 q2 u u1 : list Real)
    (offs : Z) (p : Vec3) (quat : vec Real 4) :
  4 <= offs ->
  toQVec3 n q offs p = Ok q1 ->
  toQuat n q quat = Ok q2 ->
  toUVec3 n u offs p = Ok u1 ->
  fromQVec3 n q1 offs = Ok p /\
  fromQuat n q1 = fromQuat n q /\
  fromQuat n q2 = Ok quat /\
  fromQVec3 n q2 offs = fromQVec3 n q offs /\
  fromUVec3 n u1 offs = Ok p.
Proof.
  unfold toQVec3, toQuat, toUVec3, fromQVec3, fromQuat, fromUVec3.
  intros Hoffs H1 H2 H3.
  apply bind_Ok_inv in H1 as (i & Hi & H1). rewrite Hi, !bind_Ok.
  pose proof (to_int_inv _ _ Hi) as Ei.
  apply bind_Ok_inv in H3 as (k & Hk & H3). rewrite Hk, !bind_Ok.
  split.
  { destruct (getAs_updAs_same _ _ _ _ H1) as [G _].
    rewrite G, bind_Ok, Vec3_of_vec_of_Vec3. reflexivity. }
  split.
  { eapply getAs_updAs_disjoint; [|exact H1]. right. simpl. lia. }
  split.
  { apply (getAs_updAs_same _ _ _ _ H2). }
  split.
  { assert (Hd : qIndex n + Z.of_nat 4 <= i \/ i + Z.of_nat 3 <= qIndex n)
      by (left; simpl; lia).
    rewrite (getAs_updAs_disjoint 3 _ _ _ i _ Hd H2). reflexivity. }
  destruct (getAs_updAs_same _ _ _ _ H3) as [G _].
  rewrite G, bind_Ok, Vec3_of_vec_of_Vec3. reflexivity.
Qed.

(** X5: [getHCol(pc, j)] is entry [uIndex + j] of the storage of H for
    [0 <= j < dof], and is not defined for any other [j]. *)
Theorem getHCol_addresses_storage (dof : nat) (n : RigidBodyNode)
    (pc : SBPositionCache) (j : Z) :
  in_range (storageForH pc) (uIndex n) dof ->
  getHCol dof n pc j =
    if (0 <=? j) && (j <? Z.of_nat dof)
    then getAt (storageForH pc) (uIndex n + j)
    else Undefined.
Proof.
  intros Hr. unfold getHCol, getH.
  destruct (getAs_Ok dof _ _ Hr) as (H & HH & Hs). rewrite HH, bind_Ok.
  destruct Hr as [H0 H1].
  assert (Hlen : length (vec_to_list H) = dof) by apply length_vec_to_list.
  destruct (Z.leb_spec 0 j); destruct (Z.ltb_spec j (Z.of_nat dof)); simpl.
  - unfold getAt. destruct (Z.leb_spec 0 j); [|lia].
    destruct (Z.leb_spec 0 (uIndex n + j)); [|lia].
    rewrite Hs. unfold slice. rewrite lookup_take_lt by lia. rewrite lookup_drop.
    replace (Z.to_nat (uIndex n) + Z.to_nat j)%nat with (Z.to_nat (uIndex n + j)) by lia.
    reflexivity.
  - apply getAt_Undefined. unfold has_body. lia.
  - apply getAt_Undefined. unfold has_body. lia.
  - apply getAt_Undefined. unfold has_body. lia.
Qed.

(** The shape shared by the default copies: an assertion, a read of [n]
    entries and a write of them. *)
Lemma assert_copy_outcomes {E : Type} (n : nat) (c : bool) (src dst : list E)
    (so d : Z) :
  let r := c_assert c;; v ← getAs n src so; updAs dst d v in
  (r = AssertionFailed <-> c = false) /\
  (r = Undefined <-> c = true /\ ~ (in_range src so n /\ in_range dst d n)) /\
  ((exists dst', r = Ok dst') <-> c = true /\ in_range src so n /\ in_range dst d n).
Proof.
  cbv zeta. destruct c; unfold c_assert; rewrite ?bind_Ok.
  - destruct (decide (in_range src so n)) as [Hs|Hs].
    + destruct (getAs_Ok n src so Hs) as (v & Hv & _). rewrite Hv, bind_Ok.
      destruct (decide (in_range dst d n)) as [Hd|Hd].
      * rewrite (updAs_Ok dst d v Hd).
        split; [split; [discriminate | intros [=]]|].
        split; [split; [discriminate | intros [_ Hn]; tauto]|].
        split; [tauto | eauto].
      * rewrite (updAs_Undefined dst d v Hd).
        split; [split; [discriminate | intros [=]]|].
        split; [split; [tauto | reflexivity]|].
        split; [intros [? [=]] | tauto].
    + rewrite (getAs_Undefined n src so Hs).
      change (Undefined ≫= (fun v : vec E n => updAs dst d v)) with (@Undefined (list E)).
      split; [split; [discriminate | intros [=]]|].
      split; [split; [tauto | reflexivity]|].
      split; [intros [? [=]] | tauto].
  - change (AssertionFailed ≫= (fun _ : unit => v ← getAs n src so; updAs dst d v))
      with (@AssertionFailed (list E)).
    split; [tauto|].
    split; [split; [discriminate | intros [[=] _]]|].
    split; [intros [? [=]] | intros [[=] _]].
Qed.

(** X6: the default [calcQDot] stops at its assertion exactly when the
    node is not in [QDotIsAlwaysTheSameAsU] mode, whatever the arrays are;
    in that mode it is undefined exactly when [u] or [qdot] does not hold
    the node's slice, and it returns in every other case.  The same holds
    of the default [calcQDotDot]. *)
Theorem calcQDot_outcomes (dof : nat) (n : RigidBodyNode) (sbs : SBStateDigest)
    (u qdot : Vector) :
  let ok := qdotHandling n = QDotIsAlwaysTheSameAsU in
  let fits := in_range u (uIndex n) dof /\ in_range qdot (qIndex n) dof in
  (calcQDot dof n sbs u qdot = AssertionFailed <-> ~ ok) /\
  (calcQDot dof n sbs u qdot = Undefined <-> ok /\ ~ fits) /\
  ((exists qdot', calcQDot dof n sbs u qdot = Ok qdot') <-> ok /\ fits) /\
  (calcQDotDot dof n sbs u qdot = AssertionFailed <-> ~ ok) /\
  (calcQDotDot dof n sbs u qdot = Undefined <-> ok /\ ~ fits) /\
  ((exists qdotdot', calcQDotDot dof n sbs u qdot = Ok qdotdot') <-> ok /\ fits).
Proof.
  cbv zeta. unfold calcQDot, calcQDotDot, fromU, toQ.
  pose proof (assert_copy_outcomes dof
                (bool_decide (qdotHandling n = QDotIsAlwaysTheSameAsU))
                u qdot (uIndex n) (qIndex n)) as H.
  cbv zeta in H. rewrite bool_decide_eq_true, bool_decide_eq_false in H.
  destruct H as (H1 & H2 & H3). tauto.
Qed.

(** X7: [copyU] has no assertion: in either quaternion mode and either
    qdot mode it copies the node's [dof] entries of [uIn] into [u], and it
    is undefined exactly when one of the arrays does not hold the node's
    slice. *)
Theorem copyU_copies_in_every_mode (dof : nat) (n : RigidBodyNode)
    (mv : SBModelVars) (uIn u : Vector) :
  copyU dof n mv uIn u <> AssertionFailed /\
  (copyU dof n mv uIn u = Undefined <->
     ~ (in_range uIn (uIndex n) dof /\ in_range u (uIndex n) dof)) /\
  (forall u', copyU dof n mv uIn u = Ok u' ->
     slice u' (uIndex n) dof = slice uIn (uIndex n) dof /\
     same_outside u' u (uIndex n) dof).
Proof.
  pose proof (assert_copy_outcomes dof true uIn u (uIndex n) (uIndex n)) as H.
  cbv zeta in H. unfold c_assert in H. rewrite bind_Ok in H.
  unfold copyU, fromU, toU.
  destruct H as (H1 & H2 & H3).
  split; [intros E; apply H1 in E; discriminate|].
  split; [rewrite H2; tauto|].
  intros u' Hu'.
  destruct (proj1 H3 (ex_intro _ u' Hu')) as (_ & Hs & Hd).
  destruct (copy_slice dof uIn u (uIndex n) (uIndex n) Hs Hd) as (u'' & E & S1 & S2).
  rewrite Hu' in E. injection E as <-. split; assumption.
Qed.

(** X8: in [QuaternionIsNeverUsed] mode [convertToEulerAngles] followed by
    [convertToQuaternions] gives back the node's coordinates, and
    [copyQ] is the same copy as either of them. *)
Theorem convert_round_trip (dof : nat) (n : RigidBodyNode) (mv : SBModelVars)
    (inputQ mid out : Vector) :
  quaternionUse n = QuaternionIsNeverUsed ->
  in_range inputQ (qIndex n) dof ->
  in_range mid (qIndex n) dof ->
  in_range out (qIndex n) dof ->
  exists e back,
    convertToEulerAngles dof n inputQ mid = Ok e /\
    convertToQuaternions dof n e out = Ok back /\
    slice back (qIndex n) dof = slice inputQ (qIndex n) dof /\
    same_outside back out (qIndex n) dof /\
    copyQ dof n mv inputQ mid = Ok e /\
    copyQ dof n mv inputQ out = Ok back.
Proof.
  intros Hmode Hin Hmid Hout.
  unfold convertToEulerAngles, convertToQuaternions, copyQ, fromQ, toQ.
  rewrite (c_assert_true _ Hmode), !bind_Ok.
  destruct (copy_slice dof inputQ mid (qIndex n) (qIndex n) Hin Hmid)
    as (e & He & Se & Oe).
  assert (Hre : in_range e (qIndex n) dof).
  { destruct Oe as (Le & _). unfold in_range in *. rewrite Le. exact Hmid. }
  destruct (copy_slice dof e out (qIndex n) (qIndex n) Hre Hout)
    as (back & Hb & Sb & Ob).
  destruct (copy_slice dof inputQ out (qIndex n) (qIndex n) Hin Hout)
    as (back' & Hb' & Sb' & Ob').
  exists e, back. rewrite He, Hb.
  repeat (split; [first [reflexivity | congruence | assumption]|]).
  rewrite Hb'. f_equal.
  destruct Ob as (L1 & T1 & D1), Ob' as (L2 & T2 & D2).
  rewrite <- (take_drop (Z.to_nat (qIndex n)) back').
  rewrite <- (take_drop (Z.to_nat (qIndex n)) back).
  rewrite T1, T2. f_equal.
  rewrite <- (take_drop dof (drop (Z.to_nat (qIndex n)) back')).
  rewrite <- (take_drop dof (drop (Z.to_nat (qIndex n)) back)).
  rewrite !drop_drop. unfold slice in *. congruence.
Qed.

(** X9: in [QDotIsAlwaysTheSameAsU] mode [multiplyByNInv] undoes
    [multiplyByN]: the first [dof] entries that come out of the two in a
    row are those that went in, for either side of the matrix. *)
Theorem multiplyByNInv_undoes_multiplyByN (dof : nat) (n : RigidBodyNode)
    (sbs : SBStateDigest) (useEuler matrixOnRight : bool)
    (q input mid out : list Real) :
  qdotHandling n = QDotIsAlwaysTheSameAsU ->
  in_range input 0 dof -> in_range mid 0 dof -> in_range out 0 dof ->
  exists Nin back,
    multiplyByN dof n sbs useEuler q matrixOnRight input mid = Ok Nin /\
    multiplyByNInv dof n sbs useEuler q matrixOnRight Nin out = Ok back /\
    slice back 0 dof = slice input 0 dof /\
    same_outside back out 0 dof.
Proof.
  intros Hmode Hin Hmid Hout. unfold multiplyByN, multiplyByNInv.
  rewrite (c_assert_true _ Hmode), !bind_Ok.
  destruct (copy_slice dof input mid 0 0 Hin Hmid) as (e & He & Se & Oe).
  assert (Hre : in_range e 0 dof).
  { destruct Oe as (Le & _). unfold in_range in *. rewrite Le. exact Hmid. }
  destruct (copy_slice dof e out 0 0 Hre Hout) as (back & Hb & Sb & Ob).
  exists e, back. rewrite He, Hb.
  repeat (split; [first [reflexivity | congruence | assumption]|]). exact Ob.
Qed.

End AccessorFacts2.

(** * More on the stages *)

Lemma updAt_inv {E : Type} (a a' : list E) (i : Z) (x : E) :
  updAt a i x = Ok a' -> has_body a i /\ a' = <[Z.to_nat i := x]> a.
Proof.
  intros H. destruct (decide (has_body a i)) as [Hb|Hb].
  - rewrite (updAt_Ok a i x Hb) in H. split; [exact Hb | congruence].
  - rewrite (updAt_Undefined a i x Hb) in H. discriminate.
Qed.

Section Stages.
Context {SP : SpatialPrimitives} {SC : StateContainer}.
Variable dof : nat.

(** X10: [calcJointDynamics] returns when the node's entries are
    allocated.  In the cache it returns VD_PB_G of the node is HDot times
    the node's entries of [u]; the storage of HDot_FM and of HDot, the
    VD_PB_G of every other body and the rest of the cache are as they
    were. *)
Theorem calcJointDynamics_is_HDot_times_u (n : RigidBodyNode)
    (pc : SBPositionCache) (u : Vector) (vc : SBVelocityCache)
    (dc : SBDynamicsCache) :
  (0 < dof)%nat ->
  in_range (storageForHDot dc) (uIndex n) dof ->
  in_range u (uIndex n) dof ->
  has_body (bodyVelocityInParentDerivRemainder dc) (nodeNum n) ->
  exists (HDot : HType dof) (u_n : vec Real dof) (VD : SpatialVec)
         (dc' : SBDynamicsCache),
    getHDot dof n dc = Ok HDot /\
    fromU dof n u = Ok u_n /\
    Mat_mul_Vec HDot u_n = Ok VD /\
    calcJointDynamics dof n pc u vc dc = Ok dc' /\
    getVD_PB_G n dc' = Ok VD /\
    storageForHDot_FM dc' = storageForHDot_FM dc /\
    storageForHDot dc' = storageForHDot dc /\
    dynamicsCacheRest dc' = dynamicsCacheRest dc /\
    forall i, i <> nodeNum n ->
      getAt (bodyVelocityInParentDerivRemainder dc') i =
      getAt (bodyVelocityInParentDerivRemainder dc) i.
Proof.
  intros Hdof HrH Hru Hb.
  destruct (getAs_Ok dof _ _ HrH) as (HDot & HgH & _).
  destruct (getAs_Ok dof _ _ Hru) as (u_n & Hgu & _).
  destruct (Mat_mul_Vec_Ok HDot u_n Hdof) as (VD & HVD).
  exists HDot, u_n, VD. eexists.
  unfold calcJointDynamics, getHDot, fromU, updVD_PB_G.
  rewrite HgH, Hgu, !bind_Ok, HVD, bind_Ok, (updAt_Ok _ _ VD Hb), bind_Ok.
  repeat (split; [reflexivity|]).
  unfold getVD_PB_G. cbn [bodyVelocityInParentDerivRemainder storageForHDot_FM
                          storageForHDot dynamicsCacheRest].
  split; [apply getAt_insert_same; exact Hb|].
  repeat (split; [reflexivity|]).
  intros i Hi. apply getAt_insert_other; [destruct Hb; lia | congruence].
Qed.

(** X11: whatever [calcJointKinematicsVel] returns differs from the cache
    it was given only in the node's own V_FM and V_PB_G: the entries of
    every other body and the rest of the cache are as they were, and no
    array changes its length. *)
Theorem calcJointKinematicsVel_writes_own_entries (n : RigidBodyNode)
    (pc : SBPositionCache) (u : Vector) (vc vc' : SBVelocityCache) :
  calcJointKinematicsVel dof n pc u vc = Ok vc' ->
  velocityCacheRest vc' = velocityCacheRest vc /\
  length (mobilizerRelativeVelocity vc') = length (mobilizerRelativeVelocity vc) /\
  length (bodyVelocityInParent vc') = length (bodyVelocityInParent vc) /\
  forall i, i <> nodeNum n ->
    getAt (mobilizerRelativeVelocity vc') i = getAt (mobilizerRelativeVelocity vc) i /\
    getAt (bodyVelocityInParent vc') i = getAt (bodyVelocityInParent vc) i.
Proof.
  unfold calcJointKinematicsVel. intros H.
  apply bind_Ok_inv in H as (H_FM & _ & H).
  apply bind_Ok_inv in H as (u_n & _ & H).
  apply bind_Ok_inv in H as (V_FM & _ & H).
  apply bind_Ok_inv in H as (vc1 & H1 & H).
  apply bind_Ok_inv in H as (HH & _ & H).
  apply bind_Ok_inv in H as (u_n' & _ & H).
  apply bind_Ok_inv in H as (V_PB_G & _ & H).
  unfold updV_FM in H1. apply bind_Ok_inv in H1 as (a1 & Ha1 & E1).
  injection E1 as <-. apply updAt_inv in Ha1 as [Hb1 ->].
  unfold updV_PB_G in H. apply bind_Ok_inv in H as (a2 & Ha2 & E2).
  injection E2 as <-. cbn [bodyVelocityInParent mobilizerRelativeVelocity
                           velocityCacheRest] in *.
  apply updAt_inv in Ha2 as [Hb2 ->].
  cbn [bodyVelocityInParent mobilizerRelativeVelocity velocityCacheRest].
  rewrite !length_insert. repeat (split; [reflexivity|]).
  intros i Hi. split; apply getAt_insert_other; first [destruct Hb1; lia | congruence].
Qed.




(** [calcJointKinematicsVel] on allocated entries, for use below. *)
Lemma calcJointKinematicsVel_run (n : RigidBodyNode)
    (pc : SBPositionCache) (u : Vector) (vc : SBVelocityCache) :
  velocity_slots dof n pc u vc ->
  exists (H_FM H : HType dof) (u_n : vec Real dof) (V_FM V_PB_G : SpatialVec)
         (vc' : SBVelocityCache),
    getH_FM dof n pc = Ok H_FM /\
    getH dof n pc = Ok H /\
    fromU dof n u = Ok u_n /\
    Mat_mul_Vec H_FM u_n = Ok V_FM /\
    Mat_mul_Vec H u_n = Ok V_PB_G /\
    calcJointKinematicsVel dof n pc u vc = Ok vc' /\
    getV_FM n vc' = Ok V_FM /\
    getV_PB_G n vc' = Ok V_PB_G.
Proof.
  intros (Hdof & HrFM & HrH & Hru & HbFM & HbPB).
  destruct (getAs_Ok dof _ _ HrFM) as (H_FM & HgFM & _).
  destruct (getAs_Ok dof _ _ HrH) as (H & HgH & _).
  destruct (getAs_Ok dof _ _ Hru) as (u_n & Hgu & _).
  destruct (Mat_mul_Vec_Ok H_FM u_n Hdof) as (V_FM & HV_FM).
  destruct (Mat_mul_Vec_Ok H u_n Hdof) as (V_PB_G & HV_PB_G).
  exists H_FM, H, u_n, V_FM, V_PB_G.
  eexists. unfold calcJointKinematicsVel, getH_FM, getH, fromU.
  rewrite HgFM, HgH, Hgu, !bind_Ok, HV_FM, bind_Ok.
  unfold updV_FM. rewrite (updAt_Ok _ _ V_FM HbFM), !bind_Ok.
  rewrite HV_PB_G, bind_Ok.
  unfold updV_PB_G. cbn [bodyVelocityInParent mobilizerRelativeVelocity velocityCacheRest].
  rewrite (updAt_Ok _ _ V_PB_G HbPB), !bind_Ok.
  repeat (split; [reflexivity|]).
  unfold getV_FM, getV_PB_G.
  cbn [bodyVelocityInParent mobilizerRelativeVelocity].
  rewrite !getAt_insert_same by assumption.
  split; reflexivity.
Qed.

(** X13: [realizeVelocity] on a node in [QDotIsAlwaysTheSameAsU] mode
    whose class does not override [calcQDot], with its entries allocated:
    it returns; the node's entries of qdot are its entries of u and the
    rest of qdot is as it was; and the velocity cache handed to the joint
    independent pass holds V_FM = H_FM * u and V_PB_G = H * u. *)
Theorem realizeVelocity_default (k : OutOfLine dof) (m : Mobilizer dof)
    (n : RigidBodyNode) (sbs : SBStateDigest) :
  calcQDot_override m = None ->
  qdotHandling n = QDotIsAlwaysTheSameAsU ->
  in_range (getQDot sbs) (qIndex n) dof ->
  velocity_slots dof n (getPositionCache sbs) (getU sbs) (getVelocityCache sbs) ->
  exists (qdot' : Vector) (vc : SBVelocityCache) (H_FM H : HType dof)
         (u_n : vec Real dof) (V_FM V_PB_G : SpatialVec),
    realizeVelocity dof k m n sbs =
      Ok (setVelocityCache (setQDot sbs qdot')
            (calcJointIndependentKinematicsVel k n (getPositionCache sbs) vc)) /\
    slice qdot' (qIndex n) dof = slice (getU sbs) (uIndex n) dof /\
    same_outside qdot' (getQDot sbs) (qIndex n) dof /\
    getH_FM dof n (getPositionCache sbs) = Ok H_FM /\
    getH dof n (getPositionCache sbs) = Ok H /\
    fromU dof n (getU sbs) = Ok u_n /\
    Mat_mul_Vec H_FM u_n = Ok V_FM /\
    Mat_mul_Vec H u_n = Ok V_PB_G /\
    getV_FM n vc = Ok V_FM /\
    getV_PB_G n vc = Ok V_PB_G.
Proof.
  intros Hov Hmode Hrq Hslots.
  pose proof Hslots as (_ & _ & _ & Hru & _).
  destruct (calcJointKinematicsVel_run n _ _ _ Hslots)
    as (H_FM & H & u_n & V_FM & V_PB_G & vc' & E1 & E2 & E3 & E4 & E5 & E6 & E7 & E8).
  assert (Hq : exists qdot',
             calcQDot dof n sbs (getU sbs) (getQDot sbs) = Ok qdot' /\
             slice qdot' (qIndex n) dof = slice (getU sbs) (uIndex n) dof /\
             same_outside qdot' (getQDot sbs) (qIndex n) dof).
  { unfold calcQDot, fromU, toQ. rewrite (c_assert_true _ Hmode), bind_Ok.
    apply copy_slice; assumption. }
  destruct Hq as (qdot' & Hq & Sq & Oq).
  exists qdot', vc', H_FM, H, u_n, V_FM, V_PB_G.
  unfold realizeVelocity, virtual_calcQDot. rewrite Hov, Hq, bind_Ok.
  cbn [getU setQDot]. rewrite E6, bind_Ok.
  repeat (split; [first [reflexivity | assumption]|]). assumption.
Qed.

(** X14: for a node that is not reversed, with its entries allocated, the
    H_FM in the position cache that [realizePosition] hands to the joint
    independent pass is the result of [calcAcrossJointVelocityJacobian],
    called with the digest the second step leaves, and the HDot_FM that
    [realizeDynamics] stores is the result of
    [calcAcrossJointVelocityJacobianDot]; the reversed-mobilizer methods
    of the class have no part in either result. *)
Theorem forward_node_uses_as_defined (k : OutOfLine dof) (m : Mobilizer dof)
    (n : RigidBodyNode) (sbs : SBStateDigest) :
  isReversed n = false ->
  position_slots dof n (getPositionCache sbs) ->
  dynamics_slots dof n (getU sbs) (getDynamicsCache sbs) ->
  (exists (sbs' : SBStateDigest) (pc : SBPositionCache),
     realizePosition_transforms dof m n sbs = Ok sbs' /\
     realizePosition dof k m n sbs =
       Ok (setPositionCache sbs' (calcJointIndependentKinematicsPos k n pc)) /\
     getH_FM dof n pc = Ok (calcAcrossJointVelocityJacobian m n sbs')) /\
  (exists dc : SBDynamicsCache,
     realizeDynamics dof k m n sbs =
       Ok (setDynamicsCache sbs
             (calcJointIndependentDynamicsVel k n (getPositionCache sbs)
                (getVelocityCache sbs) dc)) /\
     getHDot_FM dof n dc = Ok (calcAcrossJointVelocityJacobianDot m n sbs)) /\
  (forall A ADot : RigidBodyNode -> SBStateDigest -> HType dof,
     realizePosition dof k (with_adapters dof m A ADot) n sbs =
       realizePosition dof k m n sbs /\
     realizeDynamics dof k (with_adapters dof m A ADot) n sbs =
       realizeDynamics dof k m n sbs).
Proof.
  intros Hrev Hslots Hdyn.
  pose proof Hslots as (_ & _ & _ & HbGP & HrFM & HrH).
  destruct (getAt_Ok _ _ HbGP) as (X_GP & HgGP & _).
  destruct (realizePosition_transforms_spec dof m n sbs X_GP Hslots HgGP)
    as (pc3 & Htr & _ & _ & _ & S1 & S2).
  destruct (realizePosition_jacobians_spec dof k m n
              (setPositionCache (realizePosition_sincos dof m n sbs) pc3))
    as (pc & Hjac & HH & _).
  { cbn [getPositionCache setPositionCache]. rewrite S1. exact HrFM. }
  { cbn [getPositionCache setPositionCache]. rewrite S2. exact HrH. }
  destruct (realizeDynamics_spec dof k m n sbs Hdyn) as (dc & Hrd & HHD).
  rewrite Hrev in HH, HHD.
  split; [|split].
  - eexists. exists pc. split; [exact Htr|].
    split; [unfold realizePosition; rewrite Htr, bind_Ok; exact Hjac | exact HH].
  - exists dc. split; [exact Hrd | exact HHD].
  - intros A ADot.
    unfold realizePosition, realizePosition_transforms, realizePosition_jacobians,
      realizePosition_sincos, realizeDynamics.
    rewrite Hrev. split; reflexivity.
Qed.

(** X15: whatever [realizePosition] returns, the position cache it handed
    to the joint independent pass differs from the cache it was given in
    the node's own entries only: [sq], [cq], [qnorm] and the q errors are
    what [calcJointSinCosQNorm] returned; outside the node's columns the
    storage of H_FM and of H is as it was; X_FM, X_PB and X_GB of every
    other body are as they were; and so is the rest of the cache. *)
Theorem realizePosition_writes_own_entries (k : OutOfLine dof) (m : Mobilizer dof)
    (n : RigidBodyNode) (sbs sp : SBStateDigest) :
  realizePosition dof k m n sbs = Ok sp ->
  let pc0 := getPositionCache sbs in
  exists pc : SBPositionCache,
    getPositionCache sp = calcJointIndependentKinematicsPos k n pc /\
    (sq pc, cq pc, getQErr sp, qnorm pc) =
      calcJointSinCosQNorm m n (getModelVars sbs) (getModelCache sbs)
        (getInstanceCache sbs) (getQ sbs) (sq pc0) (cq pc0) (getQErr sbs) (qnorm pc0) /\
    positionCacheRest pc = positionCacheRest pc0 /\
    same_outside (storageForH_FM pc) (storageForH_FM pc0) (uIndex n) dof /\
    same_outside (storageForH pc) (storageForH pc0) (uIndex n) dof /\
    forall i, i <> nodeNum n ->
      getAt (bodyJointInParentJointFrame pc) i = getAt (bodyJointInParentJointFrame pc0) i /\
      getAt (bodyConfigInParent pc) i = getAt (bodyConfigInParent pc0) i /\
      getAt (bodyConfigInGround pc) i = getAt (bodyConfigInGround pc0) i.
Proof.
  intros Hp. cbv zeta. unfold realizePosition in Hp.
  apply bind_Ok_inv in Hp as (s3 & Ht & Hj).
  unfold realizePosition_transforms in Ht.
  remember (realizePosition_sincos dof m n sbs) as sbs1 eqn:Hsbs1.
  assert (Hsin : (sq (getPositionCache sbs1), cq (getPositionCache sbs1),
                  getQErr sbs1, qnorm (getPositionCache sbs1)) =
                 calcJointSinCosQNorm m n (getModelVars sbs) (getModelCache sbs)
                   (getInstanceCache sbs) (getQ sbs) (sq (getPositionCache sbs))
                   (cq (getPositionCache sbs)) (getQErr sbs) (qnorm (getPositionCache sbs))
               /\ bodyJointInParentJointFrame (getPositionCache sbs1)
                 = bodyJointInParentJointFrame (getPositionCache sbs)
               /\ bodyConfigInParent (getPositionCache sbs1)
                 = bodyConfigInParent (getPositionCache sbs)
               /\ bodyConfigInGround (getPositionCache sbs1)
                 = bodyConfigInGround (getPositionCache sbs)
               /\ storageForH_FM (getPositionCache sbs1)
                 = storageForH_FM (getPositionCache sbs)
               /\ storageForH (getPositionCache sbs1)
                 = storageForH (getPositionCache sbs)
               /\ positionCacheRest (getPositionCache sbs1)
                 = positionCacheRest (getPositionCache sbs)).
  { rewrite Hsbs1. unfold realizePosition_sincos.
    destruct (calcJointSinCosQNorm m n _ _ _ _ _ _ _ _) as [[[sq' cq'] qErr'] qnorm'].
    repeat split. }
  destruct Hsin as (Esin & E1 & E2 & E3 & E4 & E5 & E6).
  apply bind_Ok_inv in Ht as (pc1 & H1 & Ht).
  assert (H1' : exists X, updX_FM n (getPositionCache sbs1) X = Ok pc1).
  { destruct (isReversed n); eauto. }
  clear H1. destruct H1' as (X & H1).
  unfold updX_FM in H1. apply bind_Ok_inv in H1 as (a1 & Ha1 & Epc1).
  apply updAt_inv in Ha1 as [Hb1 ->]. injection Epc1 as <-.
  apply bind_Ok_inv in Ht as ([X_PB X_GB] & _ & Ht).
  apply bind_Ok_inv in Ht as (pc2 & H2 & Ht).
  unfold updX_PB in H2. apply bind_Ok_inv in H2 as (a2 & Ha2 & Epc2).
  cbn [bodyConfigInParent] in Ha2.
  apply updAt_inv in Ha2 as [Hb2 ->]. injection Epc2 as <-.
  apply bind_Ok_inv in Ht as (pc3 & H3 & Ht).
  unfold updX_GB in H3. apply bind_Ok_inv in H3 as (a3 & Ha3 & Epc3).
  cbn [bodyConfigInGround] in Ha3.
  apply updAt_inv in Ha3 as [Hb3 ->]. injection Epc3 as <-.
  injection Ht as <-.
  unfold realizePosition_jacobians in Hj.
  apply bind_Ok_inv in Hj as (pc4 & H4 & Hj).
  cbn [getPositionCache setPositionCache] in H4.
  match type of H4 with
  | (if _ then updH_FM _ _ ?pcx _ else _) = _ =>
      assert (H4' : exists HFM : HType dof, updH_FM dof n pcx HFM = Ok pc4)
        by (destruct (isReversed n); eauto)
  end.
  clear H4. destruct H4' as (HFM & H4).
  unfold updH_FM in H4. apply bind_Ok_inv in H4 as (st4 & Hst4 & Epc4).
  cbn [getPositionCache setPositionCache storageForH_FM] in Hst4.
  apply updAs_inv in Hst4 as [Hr4 ->]. injection Epc4 as <-.
  apply bind_Ok_inv in Hj as (pc5 & H5 & Hj).
  unfold updH in H5. apply bind_Ok_inv in H5 as (st5 & Hst5 & Epc5).
  cbn [getPositionCache setPositionCache storageForH] in Hst5.
  apply updAs_inv in Hst5 as [Hr5 ->]. injection Epc5 as <-.
  injection Hj as <-.
  eexists. split; [reflexivity|].
  cbn [getPositionCache setPositionCache sq cq qnorm getQErr positionCacheRest
       storageForH_FM storageForH bodyJointInParentJointFrame bodyConfigInParent
       bodyConfigInGround].
  split; [exact Esin|]. split; [exact E6|].
  split; [rewrite <- E4; apply same_outside_inserts_vec|].
  split; [rewrite <- E5; apply same_outside_inserts_vec|].
  intros i Hi. rewrite <- E1, <- E2, <- E3.
  repeat split; apply getAt_insert_other;
    first [destruct Hb1; lia | congruence].
Qed.


End Stages.

(** * More on the slots of built nodes *)

Lemma updAs_scalar_lookup {E : Type} (n : nat) (a a' : list E) (off : Z) (e : E) :
  updAs_scalar n a off e = Ok a' ->
  length a' = length a /\
  forall j : nat,
    a' !! j = if decide (Z.to_nat off <= j < Z.to_nat off + n)%nat
              then Some e else a !! j.
Proof.
  unfold updAs_scalar. intros H. apply updAs_inv in H as [[H0 H1] ->].
  rewrite slice_replicate. split; [apply length_inserts|].
  intros j. destruct (decide _) as [Hin|Hout].
  - rewrite list_lookup_inserts by (rewrite ?length_replicate; lia).
    apply lookup_replicate_2. lia.
  - destruct (decide (j < Z.to_nat off)%nat).
    + apply list_lookup_inserts_lt. lia.
    + apply list_lookup_inserts_ge. rewrite length_replicate. lia.
Qed.

Section BuiltNodes.
Context {SP : SpatialPrimitives} {SC : StateContainer}.

Lemma u_slices_disjoint (rs : list NodeRequest) (u0 usq0 q0 : Z)
    (nds : list Node) (next : Z * Z * Z) :
  createNodes rs u0 usq0 q0 = Ok (nds, next) ->
  disjoint_slices (u_slice <$> nds) /\ disjoint_slices (uSq_slice <$> nds).
Proof.
  destruct next as [[u' usq'] q']. intros H.
  destruct (createNodes_dense rs _ _ _ _ _ _ _ H) as (sizes & _ & Du & Dusq & _).
  split.
  - apply (dense_from_disjoint _ _ _ Du).
    apply Forall_fmap, Forall_true. intros nd. simpl. lia.
  - apply (dense_from_disjoint _ _ _ Dusq).
    apply Forall_fmap, Forall_true. intros nd. simpl. nia.
Qed.

Lemma disjoint_slices_apart (sl : list (Z * Z)) (i j : nat) (a b : Z * Z) :
  disjoint_slices sl -> i <> j -> sl !! i = Some a -> sl !! j = Some b ->
  a.1 + a.2 <= b.1 \/ b.1 + b.2 <= a.1.
Proof.
  intros Hd Hij Ha Hb. destruct (decide (i < j)%nat).
  - left. apply (Hd i j a b); [lia | assumption..].
  - right. apply (Hd j i b a); [lia | assumption..].
Qed.

(** X17: two different nodes of a tree built one after the other never
    touch each other's u entries or u-squared block: what one of them
    writes with [toU] or [toUSq] leaves what the other reads with [fromU]
    or [fromUSq] as it was. *)
Theorem built_nodes_do_not_interfere (rs : list NodeRequest) (u0 usq0 q0 : Z)
    (nds : list Node) (next : Z * Z * Z) (i j : nat) (a b : Node)
    (u u' uSq uSq' : list Real)
    (v : vec Real (node_dof a)) (D : vec Real (node_dof a * node_dof a)) :
  createNodes rs u0 usq0 q0 = Ok (nds, next) ->
  i <> j -> nds !! i = Some a -> nds !! j = Some b ->
  toU (node_dof a) (node_data a) u v = Ok u' ->
  toUSq (node_dof a) (node_data a) uSq D = Ok uSq' ->
  fromU (node_dof b) (node_data b) u' = fromU (node_dof b) (node_data b) u /\
  fromUSq (node_dof b) (node_data b) uSq' = fromUSq (node_dof b) (node_data b) uSq.
Proof.
  intros Hbuild Hij Ha Hb Hu HuSq.
  destruct (u_slices_disjoint _ _ _ _ _ _ Hbuild) as [Ju Jusq].
  unfold toU, toUSq, fromU, fromUSq in *. split.
  - eapply getAs_updAs_disjoint; [|exact Hu].
    apply (disjoint_slices_apart _ i j (u_slice a) (u_slice b) Ju Hij);
      rewrite list_lookup_fmap; [rewrite Ha | rewrite Hb]; reflexivity.
  - eapply getAs_updAs_disjoint; [|exact HuSq].
    rewrite !Nat2Z.inj_mul.
    apply (disjoint_slices_apart _ i j (uSq_slice a) (uSq_slice b) Jusq Hij);
      rewrite list_lookup_fmap; [rewrite Ha | rewrite Hb]; reflexivity.
Qed.

(** X18: the same for the q entries, when every node's [getMaxNQ()] is at
    least its number of mobilities ("DOF <= NQ <= maxNQ"): what one node
    writes with [toQ] leaves what another reads with [fromQ] as it was. *)
Theorem built_nodes_keep_their_q (rs : list NodeRequest) (u0 usq0 q0 : Z)
    (nds : list Node) (next : Z * Z * Z) (i j : nat) (a b : Node)
    (q q' : list Real) (v : vec Real (node_dof a)) :
  createNodes rs u0 usq0 q0 = Ok (nds, next) ->
  Forall (fun nd => forall s, node_maxNQ nd = Ok s -> Z.of_nat (node_dof nd) <= s) nds ->
  i <> j -> nds !! i = Some a -> nds !! j = Some b ->
  toQ (node_dof a) (node_data a) q v = Ok q' ->
  fromQ (node_dof b) (node_data b) q' = fromQ (node_dof b) (node_data b) q.
Proof.
  destruct next as [[u' usq'] qn]. intros Hbuild Hmax Hij Ha Hb Hq.
  destruct (createNodes_dense rs _ _ _ _ _ _ _ Hbuild) as (sizes & Hsz & _ & _ & Dq).
  assert (Hpos : Forall (fun s => 0 <= s.2) (zip_with q_slice nds sizes)).
  { clear -Hsz Hmax. induction Hsz as [|nd s nds sizes Hs _ IH]; simpl.
    - constructor.
    - inversion Hmax as [|? ? Hnd Hrest]; subst.
      constructor; [simpl; specialize (Hnd s Hs); lia | apply IH; exact Hrest]. }
  pose proof (dense_from_disjoint _ _ _ Dq Hpos) as Jq.
  destruct (Forall2_lookup_l _ _ _ i a Hsz Ha) as (sa & Hsa & Hma).
  destruct (Forall2_lookup_l _ _ _ j b Hsz Hb) as (sb & Hsb & Hmb).
  assert (Hza : zip_with q_slice nds sizes !! i = Some (q_slice a sa)).
  { rewrite lookup_zip_with, Ha. simpl. rewrite Hsa. reflexivity. }
  assert (Hzb : zip_with q_slice nds sizes !! j = Some (q_slice b sb)).
  { rewrite lookup_zip_with, Hb. simpl. rewrite Hsb. reflexivity. }
  pose proof (proj1 (Forall_lookup _ _) Hmax i a Ha sa Hma) as Hda.
  pose proof (proj1 (Forall_lookup _ _) Hmax j b Hb sb Hmb) as Hdb.
  unfold toQ, fromQ in *.
  eapply getAs_updAs_disjoint; [|exact Hq].
  destruct (disjoint_slices_apart _ i j _ _ Jq Hij Hza Hzb) as [H|H];
    simpl in H; [left | right]; lia.
Qed.

(** X19: arrays as long as the final u and u-squared counters hold the
    slice of every node of a tree built from counters that are not
    negative, so [fromU] and [fromUSq] return on them for every node. *)
Theorem allocation_holds_every_slice (rs : list NodeRequest) (u0 usq0 q0 : Z)
    (nds : list Node) (u' usq' q' : Z) (nd : Node) (a b : list Real) :
  createNodes rs u0 usq0 q0 = Ok (nds, (u', usq', q')) ->
  0 <= u0 -> 0 <= usq0 ->
  u' <= Z.of_nat (length a) -> usq' <= Z.of_nat (length b) ->
  nd ∈ nds ->
  in_range a (uIndex (node_data nd)) (node_dof nd) /\
  in_range b (uSqIndex (node_data nd)) (node_dof nd * node_dof nd) /\
  (exists v, fromU (node_dof nd) (node_data nd) a = Ok v) /\
  (exists D, fromUSq (node_dof nd) (node_data nd) b = Ok D).
Proof.
  intros Hbuild Hu0 Husq0 Ha Hb Hin.
  destruct (createNodes_dense rs _ _ _ _ _ _ _ Hbuild) as (sizes & _ & Du & Dusq & _).
  apply list_elem_of_lookup in Hin as (i & Hi).
  assert (Pu : Forall (fun s : Z * Z => 0 <= s.2) (u_slice <$> nds)).
  { apply Forall_fmap, Forall_true. intros x. simpl. lia. }
  assert (Pusq : Forall (fun s : Z * Z => 0 <= s.2) (uSq_slice <$> nds)).
  { apply Forall_fmap, Forall_true. intros x. simpl. nia. }
  destruct (dense_from_bounds _ _ _ Du Pu) as [_ Bu].
  destruct (dense_from_bounds _ _ _ Dusq Pusq) as [_ Busq].
  specialize (Bu i (u_slice nd)). specialize (Busq i (uSq_slice nd)).
  rewrite list_lookup_fmap, Hi in Bu, Busq. simpl in Bu, Busq.
  specialize (Bu eq_refl). specialize (Busq eq_refl).
  assert (Ra : in_range a (uIndex (node_data nd)) (node_dof nd))
    by (unfold in_range; lia).
  assert (Rb : in_range b (uSqIndex (node_data nd)) (node_dof nd * node_dof nd))
    by (unfold in_range; rewrite Nat2Z.inj_mul; lia).
  split; [exact Ra|]. split; [exact Rb|]. unfold fromU, fromUSq. split.
  - destruct (getAs_Ok _ _ _ Ra) as (v & Hv & _). eauto.
  - destruct (getAs_Ok _ _ _ Rb) as (D & HD & _). eauto.
Qed.

(** X20: a tree built from classes that leave [getMaxNQ] at its default
    has no node that may use a quaternion, every node takes as many q
    slots as u slots, and the q and u counters advance in step: the offset
    of a node's q slice from the first q slot is the offset of its u slice
    from the first u slot. *)
Theorem default_classes_keep_q_and_u_in_step (rs : list NodeRequest) :
  forall (u0 usq0 q0 : Z) (nds : list Node) (u' usq' q' : Z),
  Forall no_overrides rs ->
  createNodes rs u0 usq0 q0 = Ok (nds, (u', usq', q')) ->
  q' - q0 = u' - u0 /\
  Forall (fun nd =>
            quaternionUse (node_data nd) = QuaternionIsNeverUsed /\
            node_maxNQ nd = Ok (Z.of_nat (node_dof nd)) /\
            qIndex (node_data nd) - q0 = uIndex (node_data nd) - u0) nds.
Proof.
  induction rs as [|r rs IH]; intros u0 usq0 q0 nds u' usq' q' Hno H.
  - simpl in H. injection H as <- <- <- <-. split; [lia | constructor].
  - inversion Hno as [|? ? Hr Hrs]; subst. simpl in H.
    apply bind_Ok_inv in H as ([nd [[u1 usq1] q1]] & Hnd & H).
    apply bind_Ok_inv in H as ([nds' [[u2 usq2] q2]] & Hrest & H).
    injection H as <- <- <- <-.
    unfold createNode in Hnd.
    apply bind_Ok_inv in Hnd as (next & Hupd & Hnd).
    apply updateSlots_inv in Hupd as (maxNQ & Hmax & ->).
    inversion Hnd; subst; clear Hnd.
    pose proof Hmax as Hmax'.
    unfold virtual_getMaxNQ in Hmax. unfold no_overrides in Hr. rewrite Hr in Hmax.
    unfold getMaxNQ in Hmax.
    destruct (decide (quaternionUse
                (RigidBodyNodeSpec_ctor (req_mProps_B r) (req_X_PF r) (req_X_BM r)
                   u0 usq0 q0 (req_qdotHandling r) (req_quaternionUse r)
                   (req_isReversed r)) = QuaternionIsNeverUsed)) as [Hq|Hq].
    + rewrite (c_assert_true _ Hq), bind_Ok in Hmax. injection Hmax as <-.
      destruct (IH _ _ _ _ _ _ _ Hrs Hrest) as (Hfin & Hall).
      split; [lia|]. constructor.
      * simpl. split; [exact Hq|]. split; [exact Hmax' | lia].
      * eapply Forall_impl; [exact Hall|]. simpl.
        intros nd (H1 & H2 & H3). repeat split; [assumption.. | lia].
    + rewrite (c_assert_false _ Hq) in Hmax. discriminate.
Qed.

Lemma installDefaultVelocities_fill (nds : list Node) (mv : SBModelVars) :
  forall (start stop : Z) (u : Vector),
  dense_from start (u_slice <$> nds) stop ->
  0 <= start -> stop <= Z.of_nat (length u) ->
  exists u',
    installDefaultVelocities nds mv u = Ok u' /\
    length u' = length u /\
    forall j : nat,
      u' !! j = if decide (Z.to_nat start <= j < Z.to_nat stop)%nat
                then Some 0%float else u !! j.
Proof.
  induction nds as [|nd nds IH]; intros start stop u Hd H0 H1.
  - simpl in Hd. subst. exists u. split; [reflexivity|]. split; [reflexivity|].
    intros j. destruct (decide _); [lia | reflexivity].
  - simpl in Hd. destruct Hd as [Hix Hd].
    assert (Pu : Forall (fun s : Z * Z => 0 <= s.2) (u_slice <$> nds)).
    { apply Forall_fmap, Forall_true. intros x. simpl. lia. }
    destruct (dense_from_bounds _ _ _ Hd Pu) as [Hle _].
    simpl. unfold setMobilizerDefaultVelocityValues, toU_scalar.
    destruct (fill_slice (node_dof nd) u (uIndex (node_data nd)) 0%float)
      as (u1 & Hu1 & _ & _).
    { unfold in_range. lia. }
    rewrite Hu1, bind_Ok.
    apply updAs_scalar_lookup in Hu1 as [L1 K1].
    destruct (IH (start + Z.of_nat (node_dof nd)) stop u1 Hd) as (u' & Hu' & L' & K');
      [lia | lia |].
    exists u'. split; [exact Hu'|]. split; [congruence|].
    intros j. rewrite K', K1, Hix.
    repeat destruct (decide _); try reflexivity; lia.
Qed.

(** X21: installing the default velocities of every node of a tree built
    from a u counter at zero, on a [u] with one entry per u slot, returns
    [u] with every entry zero: the slices leave no entry out. *)
Theorem default_velocities_zero_all_of_u (rs : list NodeRequest) (usq0 q0 : Z)
    (nds : list Node) (nu usq' q' : Z) (mv : SBModelVars) (u : Vector) :
  createNodes rs 0 usq0 q0 = Ok (nds, (nu, usq', q')) ->
  Z.of_nat (length u) = nu ->
  installDefaultVelocities nds mv u = Ok (replicate (length u) 0%float).
Proof.
  intros Hbuild Hlen.
  destruct (createNodes_dense rs _ _ _ _ _ _ _ Hbuild) as (sizes & _ & Du & _).
  destruct (installDefaultVelocities_fill nds mv 0 nu u Du) as (u' & Hu' & L & K);
    [lia | lia |].
  rewrite Hu'. f_equal. apply list_eq. intros j. rewrite K.
  destruct (decide _) as [Hin|Hout].
  - symmetry. apply lookup_replicate_2. lia.
  - transitivity (@None Real); [apply lookup_ge_None_2; lia|].
    symmetry. apply lookup_ge_None_2. rewrite length_replicate. lia.
Qed.

End BuiltNodes.

(** * The further theorems on the example system *)

Section MoreWitnesses.
Import Example.
#[local] Existing Instance Example.refPrimitives.
#[local] Existing Instance Example.emptyContainer.

Ltac slots := repeat split; cbn; lia.

Lemma to_from_round_trip_witness :
  fromQ 1 n1 [5; 6; 9]%float = Ok [# 9%float] /\
  fromU 1 n1 [7; 3]%float = Ok [# 3%float].
Proof.
  destruct (to_from_round_trip 1 n1 [5; 6; 7]%float [5; 6; 9]%float
              [7; 2]%float [7; 3]%float [# 9%float] [# 3%float])
    as (Hq & _ & _ & Hu & _); [reflexivity | reflexivity |].
  split; [exact Hq | exact Hu].
Defined.

Lemma disjoint_nodes_do_not_interfere_witness :
  fromQ 1 n0 [5; 6; 9]%float = fromQ 1 n0 [5; 6; 7]%float /\
  fromU 1 n0 [7; 3]%float = fromU 1 n0 [7; 2]%float.
Proof.
  apply (disjoint_nodes_do_not_interfere 1 1 n1 n0 [5; 6; 7]%float [5; 6; 9]%float
           [7; 2]%float [7; 3]%float [# 9%float] [# 3%float]);
    [right; cbn; lia | right; cbn; lia | reflexivity | reflexivity].
Defined.

Lemma quaternion_and_Vec3_slots_witness :
  fromQVec3 nfree [0; 1; 0; 0; 0; 1; 2; 3]%float 4 = Ok (mkVec3 1 2 3) /\
  fromQuat nfree [0; 1; 0; 0; 0; 1; 2; 3]%float =
    fromQuat nfree [0; 1; 0; 0; 0; 0; 0; 0]%float.
Proof.
  destruct (quaternion_and_Vec3_slots nfree
              [0; 1; 0; 0; 0; 0; 0; 0]%float [0; 1; 0; 0; 0; 1; 2; 3]%float
              [0; 0; 1; 0; 0; 0; 0; 0]%float
              [0; 0; 0; 0; 0; 0; 0; 0]%float [0; 0; 0; 0; 0; 1; 2; 3]%float
              4 (mkVec3 1 2 3) [# 0; 1; 0; 0]%float)
    as (H1 & H2 & _); [lia | reflexivity ..|].
  split; [exact H1 | exact H2].
Defined.

Lemma getHCol_addresses_storage_witness :
  getHCol 1 n1 pc0 0 = getAt (storageForH pc0) 1 /\
  getHCol 1 n1 pc0 1 = Undefined.
Proof.
  split.
  - apply (getHCol_addresses_storage 1 n1 pc0 0). slots.
  - apply (getHCol_addresses_storage 1 n1 pc0 1). slots.
Defined.

Lemma copyU_copies_in_every_mode_witness :
  slice [0; 2; 3; 4]%float 1 3 = slice [1; 2; 3; 4]%float 1 3 /\
  same_outside [0; 2; 3; 4]%float [0; 0; 0; 0]%float 1 3.
Proof.
  destruct (copyU_copies_in_every_mode 3 n1d tt [1; 2; 3; 4]%float
              [0; 0; 0; 0]%float) as (_ & _ & Hcopy).
  apply (Hcopy [0; 2; 3; 4]%float). reflexivity.
Defined.

Lemma convert_round_trip_witness :
  exists e back,
    convertToEulerAngles 1 n1 [5; 6; 7]%float [0; 0; 0]%float = Ok e /\
    convertToQuaternions 1 n1 e [1; 1; 1]%float = Ok back /\
    slice back 2 1 = slice [5; 6; 7]%float 2 1.
Proof.
  destruct (convert_round_trip 1 n1 tt [5; 6; 7]%float [0; 0; 0]%float
              [1; 1; 1]%float)
    as (e & back & H1 & H2 & H3 & _); [reflexivity | slots ..|].
  exists e, back. split; [exact H1|]. split; [exact H2 | exact H3].
Defined.

Lemma multiplyByNInv_undoes_multiplyByN_witness :
  exists Nin back,
    multiplyByN 1 n1 digest0 true [] false [4; 5]%float [0; 0]%float = Ok Nin /\
    multiplyByNInv 1 n1 digest0 true [] false Nin [1; 1; 1]%float = Ok back /\
    slice back 0 1 = slice [4; 5]%float 0 1.
Proof.
  destruct (multiplyByNInv_undoes_multiplyByN 1 n1 digest0 true false []
              [4; 5]%float [0; 0]%float [1; 1; 1]%float)
    as (Nin & back & H1 & H2 & H3 & _); [reflexivity | slots ..|].
  exists Nin, back. split; [exact H1|]. split; [exact H2 | exact H3].
Defined.

Lemma calcJointDynamics_is_HDot_times_u_witness :
  exists dc',
    calcJointDynamics 1 n1 pc0 [7; 2]%float vc0 dc0 = Ok dc' /\
    storageForHDot dc' = storageForHDot dc0 /\
    getAt (bodyVelocityInParentDerivRemainder dc') 0 =
      getAt (bodyVelocityInParentDerivRemainder dc0) 0.
Proof.
  destruct (calcJointDynamics_is_HDot_times_u 1 n1 pc0 [7; 2]%float vc0 dc0)
    as (HDot & u_n & VD & dc' & _ & _ & _ & Hrun & _ & _ & HH & _ & Hother);
    [lia | slots ..|].
  exists dc'. split; [exact Hrun|]. split; [exact HH|].
  apply Hother. discriminate.
Defined.

Lemma calcJointKinematicsVel_writes_own_entries_witness :
  let vc' := returned vc0 (calcJointKinematicsVel 1 n1 pc0 [7; 2]%float vc0) in
  getAt (mobilizerRelativeVelocity vc') 0 = getAt (mobilizerRelativeVelocity vc0) 0 /\
  getAt (bodyVelocityInParent vc') 0 = getAt (bodyVelocityInParent vc0) 0.
Proof.
  cbv zeta.
  destruct (calcJointKinematicsVel_writes_own_entries 1 n1 pc0 [7; 2]%float vc0
              (returned vc0 (calcJointKinematicsVel 1 n1 pc0 [7; 2]%float vc0)))
    as (_ & _ & _ & Hother); [reflexivity|].
  apply Hother. discriminate.
Defined.


Lemma realizeVelocity_default_witness :
  exists qdot' vc,
    realizeVelocity 1 (refOutOfLine 1) Slider n1 digest0 =
      Ok (setVelocityCache (setQDot digest0 qdot') vc) /\
    slice qdot' 2 1 = [2%float] /\
    (V ← getV_FM n1 vc; Ok (sv0 V)) = Ok (mkVec3 0 0 2).
Proof.
  destruct (realizeVelocity_default 1 (refOutOfLine 1) Slider n1 digest0)
    as (qdot' & vc & H_FM & H & u_n & V_FM & V_PB_G
        & Hrun & Hs & _ & E1 & _ & E3 & E4 & _ & E7 & _);
    [reflexivity | reflexivity | slots | slots |].
  exists qdot', vc. split; [exact Hrun|]. split; [exact Hs|].
  rewrite E7, bind_Ok. f_equal.
  vm_compute in E1. injection E1 as <-.
  vm_compute in E3. injection E3 as <-.
  vm_compute in E4. injection E4 as <-. reflexivity.
Defined.

Lemma forward_node_uses_as_defined_witness :
  (exists (sbs' : SBStateDigest) (pc : SBPositionCache),
     realizePosition 1 (refOutOfLine 1) Slider n1 digest0 =
       Ok (setPositionCache sbs' pc) /\
     getH_FM 1 n1 pc = Ok [# mkSpatialVec zero3 (mkVec3 0 0 1)]) /\
  (exists dc : SBDynamicsCache,
     realizeDynamics 1 (refOutOfLine 1) Slider n1 digest0 =
       Ok (setDynamicsCache digest0 dc) /\
     getHDot_FM 1 n1 dc = Ok [# mkSpatialVec zero3 zero3]).
Proof.
  destruct (forward_node_uses_as_defined 1 (refOutOfLine 1) Slider n1 digest0)
    as ((sbs' & pc & _ & Hrun & HH) & (dc & Hdyn & HHD) & _);
    [reflexivity | slots | slots |].
  split.
  - exists sbs', pc. split; [exact Hrun | exact HH].
  - exists dc. split; [exact Hdyn | exact HHD].
Defined.

Lemma realizePosition_writes_own_entries_witness :
  exists pc : SBPositionCache,
    getPositionCache
      (returned digest0 (realizePosition 1 (refOutOfLine 1) Slider n1r digest0)) = pc /\
    same_outside (storageForH_FM pc) (storageForH_FM pc0) 1 1 /\
    getAt (bodyConfigInGround pc) 0 = getAt (bodyConfigInGround pc0) 0.
Proof.
  destruct (realizePosition_writes_own_entries 1 (refOutOfLine 1) Slider n1r digest0
              (returned digest0
                 (realizePosition 1 (refOutOfLine 1) Slider n1r digest0)))
    as (pc & Hpc & _ & _ & HFM & _ & Hother); [reflexivity|].
  exists pc. split; [exact Hpc|]. split; [exact HFM|].
  apply (Hother 0). discriminate.
Defined.


Lemma built_nodes_do_not_interfere_witness :
  fromU 3 (node_data (built 1)) [9; 2; 3; 4; 5]%float =
    fromU 3 (node_data (built 1)) [1; 2; 3; 4; 5]%float /\
  fromUSq 3 (node_data (built 1)) (9%float :: replicate 10 0%float) =
    fromUSq 3 (node_data (built 1)) (replicate 11 0%float).
Proof.
  apply (built_nodes_do_not_interfere three_requests 0 0 0 three_nodes (5, 11, 6)
           0%nat 1%nat (built 0) (built 1)
           [1; 2; 3; 4; 5]%float [9; 2; 3; 4; 5]%float
           (replicate 11 0%float) (9%float :: replicate 10 0%float)
           [# 9%float] [# 9%float]);
    first [reflexivity | discriminate].
Defined.

Lemma built_nodes_keep_their_q_witness :
  fromQ 3 (node_data (built 1)) [9; 2; 3; 4; 5; 6]%float =
    fromQ 3 (node_data (built 1)) [1; 2; 3; 4; 5; 6]%float.
Proof.
  apply (built_nodes_keep_their_q three_requests 0 0 0 three_nodes (5, 11, 6)
           0%nat 1%nat (built 0) (built 1)
           [1; 2; 3; 4; 5; 6]%float [9; 2; 3; 4; 5; 6]%float [# 9%float]);
    [reflexivity | | discriminate | reflexivity | reflexivity | reflexivity].
  apply Forall_lookup. intros i nd Hi s Hs.
  destruct i as [|[|[|i]]]; vm_compute in Hi; [| | |discriminate];
    injection Hi as <-; vm_compute in Hs; injection Hs as <-; cbn; lia.
Defined.

Lemma allocation_holds_every_slice_witness :
  (exists v, fromU 3 (node_data (built 1)) [1; 2; 3; 4; 5]%float = Ok v) /\
  (exists D, fromUSq 3 (node_data (built 1)) (replicate 11 0%float) = Ok D).
Proof.
  destruct (allocation_holds_every_slice three_requests 0 0 0 three_nodes 5 11 6
              (built 1) [1; 2; 3; 4; 5]%float (replicate 11 0%float))
    as (_ & _ & Hu & HuSq);
    [reflexivity | lia | lia | cbn; lia | cbn; lia | |].
  - apply list_elem_of_lookup. exists 1%nat. reflexivity.
  - split; [exact Hu | exact HuSq].
Defined.

Lemma default_classes_keep_q_and_u_in_step_witness :
  4 - 0 = 4 - 0 /\
  Forall (fun nd =>
            quaternionUse (node_data nd) = QuaternionIsNeverUsed /\
            node_maxNQ nd = Ok (Z.of_nat (node_dof nd)) /\
            qIndex (node_data nd) - 0 = uIndex (node_data nd) - 0) two_nodes.
Proof.
  apply (default_classes_keep_q_and_u_in_step two_requests 0 0 0 two_nodes 4 10 4);
    [repeat constructor | reflexivity].
Defined.

Lemma default_velocities_zero_all_of_u_witness :
  installDefaultVelocities three_nodes tt [1; 2; 3; 4; 5]%float =
    Ok [0; 0; 0; 0; 0]%float.
Proof.
  apply (default_velocities_zero_all_of_u three_requests 0 0 three_nodes 5 11 6 tt
           [1; 2; 3; 4; 5]%float); reflexivity.
Defined.

(** ** Further runs *)

Example default_positions_leave_fourth_coordinate :
  setMobilizerDefaultPositionValues 3 (node_data (built 1)) tt
    [1; 2; 3; 4; 5; 6]%float = Ok [1; 0; 0; 0; 5; 6]%float.
Proof. reflexivity. Qed.

Example copyU_on_quaternion_node :
  copyU 3 n1d tt [1; 2; 3; 4]%float [0; 0; 0; 0]%float = Ok [0; 2; 3; 4]%float.
Proof. reflexivity. Qed.

End MoreWitnesses.
